(** * Order retrieval and pagination of campus-connect

    A shallow embedding of [OrderRepository] in
    [src/services/shop.services.ts]: the two retrieval strategies of
    [getPaginatedShopOrders], the cursor token they build and read
    ([Buffer], [JSON] and [Date] of the JavaScript runtime), the part of
    Prisma's [findMany] / [update] / [updateMany] the repository relies on,
    and the two status mutations; then the other reads and writes of
    [OrderRepository] and the [ShopServices] of the same file.

    JavaScript strings are lists of UTF-16 code units (each a [Z] in
    [0, 65536)); byte buffers are lists of [Z] in [0, 256). *)

From Stdlib Require Import ZArith List Bool Lia Permutation.
Import ListNotations.
Open Scope Z_scope.
Set Warnings "-register-all".


Definition jsstring := list Z.

(** Run a boolean check on the [n] integers from [z] on. *)
Fixpoint all_from (n : nat) (z : Z) (P : Z -> bool) : bool :=
  match n with
  | O => true
  | S k => P z && all_from k (z + 1) P
  end.

(** Run a boolean check on every integer of [0, n). *)
Definition all_below (n : Z) (P : Z -> bool) : bool := all_from (Z.to_nat n) 0 P.

(** ** Base64, as [Buffer#toString("base64")] and
    [Buffer.from(s, "base64")] of Node *)
Module Base64.

(** The character of a sextet in the standard alphabet. *)
Definition char_of (v : Z) : Z :=
  if v <? 26 then 65 + v
  else if v <? 52 then 97 + (v - 26)
  else if v <? 62 then 48 + (v - 52)
  else if v =? 62 then 43
  else 47.

(** [buf.toString("base64")]: groups of three bytes, '=' padding. *)
Fixpoint encode (bs : list Z) : jsstring :=
  match bs with
  | b1 :: b2 :: b3 :: r =>
      [char_of (b1 / 4); char_of ((b1 mod 4) * 16 + b2 / 16);
       char_of ((b2 mod 16) * 4 + b3 / 64); char_of (b3 mod 64)] ++ encode r
  | [b1; b2] =>
      [char_of (b1 / 4); char_of ((b1 mod 4) * 16 + b2 / 16);
       char_of ((b2 mod 16) * 4); 61]
  | [b1] => [char_of (b1 / 4); char_of ((b1 mod 4) * 16); 61; 61]
  | [] => []
  end.

(** Node's [unbase64] table: the standard and the URL-safe alphabet. *)
Definition value_of (c : Z) : option Z :=
  if (65 <=? c) && (c <=? 90) then Some (c - 65)
  else if (97 <=? c) && (c <=? 122) then Some (c - 71)
  else if (48 <=? c) && (c <=? 57) then Some (c + 4)
  else if (c =? 43) || (c =? 45) then Some 62
  else if (c =? 47) || (c =? 95) then Some 63
  else None.

(** The legacy decoder reads each code unit truncated to its low byte,
    skips characters outside the alphabet and stops at the first '='. *)
Fixpoint sextets (s : jsstring) : list Z :=
  match s with
  | [] => []
  | u :: r =>
      let c := u mod 256 in
      if c =? 61 then []
      else match value_of c with
           | Some v => v :: sextets r
           | None => sextets r
           end
  end.

(** Four sextets give three bytes; a trailing group of two or three
    sextets gives one or two bytes, a single sextet none. *)
Fixpoint bytes_of (xs : list Z) : list Z :=
  match xs with
  | a :: b :: c :: d :: r =>
      (a * 4 + b / 16) :: ((b mod 16) * 16 + c / 4) :: ((c mod 4) * 64 + d)
        :: bytes_of r
  | [a; b; c] => [a * 4 + b / 16; (b mod 16) * 16 + c / 4]
  | [a; b] => [a * 4 + b / 16]
  | _ => []
  end.

Definition decode (s : jsstring) : list Z := bytes_of (sextets s).

End Base64.

(** ** UTF-8, as [Buffer.from(s)] and [buf.toString("utf-8")] *)
Module Utf8.

Definition is_high (u : Z) : bool := (55296 <=? u) && (u <=? 56319).
Definition is_low (u : Z) : bool := (56320 <=? u) && (u <=? 57343).

(** The code points of a string; a lone surrogate becomes U+FFFD, as
    V8 does when it writes a string out as UTF-8. *)
Fixpoint code_points (s : jsstring) : list Z :=
  match s with
  | [] => []
  | u :: r =>
      if is_high u then
        match r with
        | u2 :: r2 =>
            if is_low u2 then (65536 + (u - 55296) * 1024 + (u2 - 56320)) :: code_points r2
            else 65533 :: code_points r
        | [] => [65533]
        end
      else if is_low u then 65533 :: code_points r
      else u :: code_points r
  end.

Definition bytes_of_cp (cp : Z) : list Z :=
  if cp <? 128 then [cp]
  else if cp <? 2048 then [192 + cp / 64; 128 + cp mod 64]
  else if cp <? 65536 then [224 + cp / 4096; 128 + (cp / 64) mod 64; 128 + cp mod 64]
  else [240 + cp / 262144; 128 + (cp / 4096) mod 64; 128 + (cp / 64) mod 64;
        128 + cp mod 64].

(** [Buffer.from(s)] (default encoding "utf8"). *)
Definition encode (s : jsstring) : list Z := flat_map bytes_of_cp (code_points s).

Definition cont (b : Z) : bool := (128 <=? b) && (b <=? 191).

(** The UTF-8 decoder of the Encoding Standard: each maximal ill-formed
    subpart becomes one U+FFFD and the byte that ended it is read again. *)
Fixpoint decode_cps (bs : list Z) : list Z :=
  match bs with
  | [] => []
  | b0 :: r0 =>
      if b0 <? 128 then b0 :: decode_cps r0
      else if (194 <=? b0) && (b0 <=? 223) then
        match r0 with
        | b1 :: r1 =>
            if cont b1 then ((b0 - 192) * 64 + (b1 - 128)) :: decode_cps r1
            else 65533 :: decode_cps r0
        | [] => [65533]
        end
      else if (224 <=? b0) && (b0 <=? 239) then
        let lo := if b0 =? 224 then 160 else 128 in
        let hi := if b0 =? 237 then 159 else 191 in
        match r0 with
        | b1 :: r1 =>
            if (lo <=? b1) && (b1 <=? hi) then
              match r1 with
              | b2 :: r2 =>
                  if cont b2 then
                    ((b0 - 224) * 4096 + (b1 - 128) * 64 + (b2 - 128)) :: decode_cps r2
                  else 65533 :: decode_cps r1
              | [] => [65533]
              end
            else 65533 :: decode_cps r0
        | [] => [65533]
        end
      else if (240 <=? b0) && (b0 <=? 244) then
        let lo := if b0 =? 240 then 144 else 128 in
        let hi := if b0 =? 244 then 143 else 191 in
        match r0 with
        | b1 :: r1 =>
            if (lo <=? b1) && (b1 <=? hi) then
              match r1 with
              | b2 :: r2 =>
                  if cont b2 then
                    match r2 with
                    | b3 :: r3 =>
                        if cont b3 then
                          ((b0 - 240) * 262144 + (b1 - 128) * 4096 + (b2 - 128) * 64
                           + (b3 - 128)) :: decode_cps r3
                        else 65533 :: decode_cps r2
                    | [] => [65533]
                    end
                  else 65533 :: decode_cps r1
              | [] => [65533]
              end
            else 65533 :: decode_cps r0
        | [] => [65533]
        end
      else 65533 :: decode_cps r0
  end.

(** A code point as UTF-16 code units. *)
Definition units_of_cp (cp : Z) : list Z :=
  if cp <? 65536 then [cp]
  else [55296 + (cp - 65536) / 1024; 56320 + (cp - 65536) mod 1024].

(** [buf.toString("utf-8")]. *)
Definition decode (bs : list Z) : jsstring := flat_map units_of_cp (decode_cps bs).

End Utf8.

(** ** JSON values, [JSON.stringify] of the cursor pair and [JSON.parse] *)
Module Json.

(** A number is kept as its source text; no claim needs its value. *)
Inductive json : Type :=
| JNull
| JBool (b : bool)
| JNum (lexeme : jsstring)
| JStr (s : jsstring)
| JArr (l : list json)
| JObj (l : list (jsstring * json)).

Definition hex_digit (d : Z) : Z := if d <? 10 then 48 + d else 87 + d.

(** [\uXXXX] with lower-case hex digits, as QuoteJSONString writes it. *)
Definition unicode_escape (u : Z) : jsstring :=
  [92; 117; hex_digit (u / 4096); hex_digit ((u / 256) mod 16);
   hex_digit ((u / 16) mod 16); hex_digit (u mod 16)].

Definition escape_unit (u : Z) : jsstring :=
  if u =? 8 then [92; 98]
  else if u =? 9 then [92; 116]
  else if u =? 10 then [92; 110]
  else if u =? 12 then [92; 102]
  else if u =? 13 then [92; 114]
  else if u =? 34 then [92; 34]
  else if u =? 92 then [92; 92]
  else if u <? 32 then unicode_escape u
  else if Utf8.is_high u || Utf8.is_low u then unicode_escape u
  else [u].

(** The body of QuoteJSONString: a surrogate pair is copied, a lone
    surrogate is escaped. *)
Fixpoint quote_units (s : jsstring) : jsstring :=
  match s with
  | [] => []
  | u :: r =>
      if Utf8.is_high u then
        match r with
        | u2 :: r2 =>
            if Utf8.is_low u2 then u :: u2 :: quote_units r2
            else unicode_escape u ++ quote_units r
        | [] => unicode_escape u
        end
      else escape_unit u ++ quote_units r
  end.

Definition quote (s : jsstring) : jsstring := [34] ++ quote_units s ++ [34].

(** [JSON.stringify([a, b])] for two strings. *)
Definition stringify_pair (a b : jsstring) : jsstring :=
  [91] ++ quote a ++ [44] ++ quote b ++ [93].

Definition is_ws (u : Z) : bool := (u =? 32) || (u =? 9) || (u =? 10) || (u =? 13).

Fixpoint skip_ws (s : jsstring) : jsstring :=
  match s with
  | u :: r => if is_ws u then skip_ws r else s
  | [] => []
  end.

Definition is_digit (u : Z) : bool := (48 <=? u) && (u <=? 57).

Definition hex_value (u : Z) : option Z :=
  if is_digit u then Some (u - 48)
  else if (65 <=? u) && (u <=? 70) then Some (u - 55)
  else if (97 <=? u) && (u <=? 102) then Some (u - 87)
  else None.

Definition hex4 (a b c d : Z) : option Z :=
  match hex_value a, hex_value b, hex_value c, hex_value d with
  | Some x, Some y, Some z, Some w => Some (((x * 16 + y) * 16 + z) * 16 + w)
  | _, _, _, _ => None
  end.

Definition cons_fst (u : Z) (o : option (jsstring * jsstring)) :=
  match o with
  | Some (a, rest) => Some (u :: a, rest)
  | None => None
  end.

(** A string literal after its opening quote: its value and the text
    after the closing quote. *)
Fixpoint pstr (s : jsstring) : option (jsstring * jsstring) :=
  match s with
  | [] => None
  | u :: r =>
      if u =? 34 then Some ([], r)
      else if u =? 92 then
        match r with
        | [] => None
        | e :: r' =>
            if e =? 34 then cons_fst 34 (pstr r')
            else if e =? 92 then cons_fst 92 (pstr r')
            else if e =? 47 then cons_fst 47 (pstr r')
            else if e =? 98 then cons_fst 8 (pstr r')
            else if e =? 102 then cons_fst 12 (pstr r')
            else if e =? 110 then cons_fst 10 (pstr r')
            else if e =? 114 then cons_fst 13 (pstr r')
            else if e =? 116 then cons_fst 9 (pstr r')
            else if e =? 117 then
              match r' with
              | h1 :: h2 :: h3 :: h4 :: r'' =>
                  match hex4 h1 h2 h3 h4 with
                  | Some v => cons_fst v (pstr r'')
                  | None => None
                  end
              | _ => None
              end
            else None
        end
      else if u <? 32 then None
      else cons_fst u (pstr r)
  end.

(** The maximal run of decimal digits at the front. *)
Fixpoint digits (s : jsstring) : jsstring * jsstring :=
  match s with
  | u :: r =>
      if is_digit u then let '(ds, rest) := digits r in (u :: ds, rest) else ([], s)
  | [] => ([], [])
  end.

Definition pint (s : jsstring) : option (jsstring * jsstring) :=
  match s with
  | u :: r =>
      if u =? 48 then Some ([48], r)
      else if is_digit u then let '(ds, rest) := digits r in Some (u :: ds, rest)
      else None
  | [] => None
  end.

Definition pfrac (s : jsstring) : option (jsstring * jsstring) :=
  match s with
  | u :: r =>
      if u =? 46 then
        match digits r with
        | ([], _) => None
        | (ds, rest) => Some (46 :: ds, rest)
        end
      else Some ([], s)
  | [] => Some ([], [])
  end.

Definition pexp (s : jsstring) : option (jsstring * jsstring) :=
  match s with
  | u :: r =>
      if (u =? 69) || (u =? 101) then
        let '(sg, r1) :=
          match r with
          | v :: r' => if (v =? 43) || (v =? 45) then ([v], r') else ([], r)
          | [] => ([], [])
          end in
        match digits r1 with
        | ([], _) => None
        | (ds, rest) => Some (u :: sg ++ ds, rest)
        end
      else Some ([], s)
  | [] => Some ([], [])
  end.

(** A number literal: its text and the rest. *)
Definition pnum (s : jsstring) : option (jsstring * jsstring) :=
  let '(sg, s1) :=
    match s with
    | u :: r => if u =? 45 then ([45], r) else ([], s)
    | [] => ([], [])
    end in
  match pint s1 with
  | None => None
  | Some (i, s2) =>
      match pfrac s2 with
      | None => None
      | Some (f, s3) =>
          match pexp s3 with
          | None => None
          | Some (e, s4) => Some (sg ++ i ++ f ++ e, s4)
          end
      end
  end.

(** A literal word such as [true] after its first letter. *)
Fixpoint plit (w s : jsstring) : option jsstring :=
  match w, s with
  | [], _ => Some s
  | c :: w', u :: s' => if c =? u then plit w' s' else None
  | _ :: _, [] => None
  end.

Definition lit (w s : jsstring) (v : json) : option (json * jsstring) :=
  match plit w s with
  | Some rest => Some (v, rest)
  | None => None
  end.

(** Recursive descent over the JSON grammar.  The fuel bounds the depth
    of calls; every call below the first consumes at least one code unit
    first, so the length of the text plus one never runs out. *)
Fixpoint pvalue (fuel : nat) (s : jsstring) : option (json * jsstring) :=
  match fuel with
  | O => None
  | S f =>
      match skip_ws s with
      | [] => None
      | u :: r =>
          if u =? 34 then
            match pstr r with
            | Some (x, r') => Some (JStr x, r')
            | None => None
            end
          else if u =? 91 then
            match skip_ws r with
            | v :: r' => if v =? 93 then Some (JArr [], r') else parr f r []
            | [] => None
            end
          else if u =? 123 then
            match skip_ws r with
            | v :: r' => if v =? 125 then Some (JObj [], r') else pobj f r []
            | [] => None
            end
          else if u =? 116 then lit [114; 117; 101] r (JBool true)
          else if u =? 102 then lit [97; 108; 115; 101] r (JBool false)
          else if u =? 110 then lit [117; 108; 108] r JNull
          else
            match pnum (u :: r) with
            | Some (lx, r') => Some (JNum lx, r')
            | None => None
            end
      end
  end
with parr (fuel : nat) (s : jsstring) (acc : list json) : option (json * jsstring) :=
  match fuel with
  | O => None
  | S f =>
      match pvalue f s with
      | None => None
      | Some (v, r) =>
          match skip_ws r with
          | c :: r' =>
              if c =? 44 then parr f r' (acc ++ [v])
              else if c =? 93 then Some (JArr (acc ++ [v]), r')
              else None
          | [] => None
          end
      end
  end
with pobj (fuel : nat) (s : jsstring) (acc : list (jsstring * json))
    : option (json * jsstring) :=
  match fuel with
  | O => None
  | S f =>
      match skip_ws s with
      | q :: r =>
          if q =? 34 then
            match pstr r with
            | None => None
            | Some (k, r1) =>
                match skip_ws r1 with
                | c :: r2 =>
                    if c =? 58 then
                      match pvalue f r2 with
                      | None => None
                      | Some (v, r3) =>
                          match skip_ws r3 with
                          | d :: r4 =>
                              if d =? 44 then pobj f r4 (acc ++ [(k, v)])
                              else if d =? 125 then Some (JObj (acc ++ [(k, v)]), r4)
                              else None
                          | [] => None
                          end
                      end
                    else None
                | [] => None
                end
            end
          else None
      | [] => None
      end
  end.

(** [JSON.parse(text)]: [None] is the SyntaxError it throws. *)
Definition parse (s : jsstring) : option json :=
  match pvalue (S (length s)) s with
  | Some (v, rest) =>
      match skip_ws rest with
      | [] => Some v
      | _ => None
      end
  | None => None
  end.

End Json.

(** ** Dates: [Date#toISOString] and the ISO branch of [Date.parse]

    A [Date] holds a time value: milliseconds since the epoch, valid when
    its absolute value is at most 8.64e15 ([TimeClip]); an invalid date is
    [None].  Days are converted to and from the proleptic Gregorian
    calendar of ECMAScript (MakeDay, YearFromTime, MonthFromTime,
    DateFromTime) by the era-based closed forms. *)
Module IsoDate.

Definition ms_per_day := 86400000.
Definition max_time := 8640000000000000.

(** Year, month (1..12) and day of month of a day number. *)
Definition civil_from_days (z : Z) : Z * Z * Z :=
  let z := z + 719468 in
  let era := z / 146097 in
  let doe := z - era * 146097 in
  let yoe := (doe - doe / 1460 + doe / 36524 - doe / 146096) / 365 in
  let y := yoe + era * 400 in
  let doy := doe - (365 * yoe + yoe / 4 - yoe / 100) in
  let mp := (5 * doy + 2) / 153 in
  let d := doy - (153 * mp + 2) / 5 + 1 in
  let m := if mp <? 10 then mp + 3 else mp - 9 in
  (if m <=? 2 then y + 1 else y, m, d).

(** MakeDay(y, m - 1, d) for an in-range month and day. *)
Definition days_from_civil (y m d : Z) : Z :=
  let y := if m <=? 2 then y - 1 else y in
  let era := y / 400 in
  let yoe := y - era * 400 in
  let doy := (153 * (if 2 <? m then m - 3 else m + 9) + 2) / 5 + d - 1 in
  let doe := yoe * 365 + yoe / 4 - yoe / 100 + doy in
  era * 146097 + doe - 719468.

Definition is_leap (y : Z) : bool :=
  (y mod 4 =? 0) && (negb (y mod 100 =? 0) || (y mod 400 =? 0)).

Definition days_in_month (y m : Z) : Z :=
  if m =? 2 then (if is_leap y then 29 else 28)
  else if (m =? 4) || (m =? 6) || (m =? 9) || (m =? 11) then 30
  else 31.

(** [n] decimal digits of [v], most significant first. *)
Fixpoint pad (n : nat) (v : Z) : jsstring :=
  match n with
  | O => []
  | S k => pad k (v / 10) ++ [48 + v mod 10]
  end.

Definition year_text (y : Z) : jsstring :=
  if (0 <=? y) && (y <=? 9999) then pad 4 y
  else (if y <? 0 then [45] else [43]) ++ pad 6 (Z.abs y).

(** [date.toISOString()] of a valid date: YYYY-MM-DDTHH:mm:ss.sssZ,
    with a signed six-digit year outside 0..9999. *)
Definition to_iso_string (t : Z) : jsstring :=
  let day := t / ms_per_day in
  let ms := t mod ms_per_day in
  let '(y, m, d) := civil_from_days day in
  year_text y ++ [45] ++ pad 2 m ++ [45] ++ pad 2 d ++ [84]
    ++ pad 2 (ms / 3600000) ++ [58] ++ pad 2 ((ms / 60000) mod 60)
    ++ [58] ++ pad 2 ((ms / 1000) mod 60) ++ [46] ++ pad 3 (ms mod 1000) ++ [90].

(** Exactly [n] decimal digits. *)
Fixpoint read_digits (n : nat) (s : jsstring) (acc : Z) : option (Z * jsstring) :=
  match n with
  | O => Some (acc, s)
  | S k =>
      match s with
      | u :: r =>
          if (48 <=? u) && (u <=? 57) then read_digits k r (acc * 10 + (u - 48))
          else None
      | [] => None
      end
  end.

Definition expect (c : Z) (s : jsstring) : option jsstring :=
  match s with
  | u :: r => if u =? c then Some r else None
  | [] => None
  end.

Definition read_year (s : jsstring) : option (Z * jsstring) :=
  match s with
  | u :: r =>
      if u =? 43 then read_digits 6 r 0
      else if u =? 45 then
        match read_digits 6 r 0 with
        | Some (v, rest) => if v =? 0 then None else Some (- v, rest)
        | None => None
        end
      else read_digits 4 s 0
  | [] => None
  end.

Definition obind {A B} (o : option A) (f : A -> option B) : option B :=
  match o with
  | Some a => f a
  | None => None
  end.

(** The strings of the full UTC form of the Date Time String Format with
    every field in range, the form [toISOString] produces.  [Some r] is
    the result every conforming engine gives ([None] inside [r] is an
    invalid date: out of TimeClip range); [None] means the string is
    outside this form and left to the engine's own parser. *)
Definition iso_parse (s : jsstring) : option (option Z) :=
  obind (read_year s) (fun '(y, s) =>
  obind (expect 45 s) (fun s =>
  obind (read_digits 2 s 0) (fun '(mo, s) =>
  obind (expect 45 s) (fun s =>
  obind (read_digits 2 s 0) (fun '(d, s) =>
  obind (expect 84 s) (fun s =>
  obind (read_digits 2 s 0) (fun '(h, s) =>
  obind (expect 58 s) (fun s =>
  obind (read_digits 2 s 0) (fun '(mi, s) =>
  obind (expect 58 s) (fun s =>
  obind (read_digits 2 s 0) (fun '(sec, s) =>
  obind (expect 46 s) (fun s =>
  obind (read_digits 3 s 0) (fun '(ms, s) =>
  obind (expect 90 s) (fun s =>
    match s with
    | [] =>
        if (1 <=? mo) && (mo <=? 12) && (1 <=? d) && (d <=? days_in_month y mo)
           && (h <=? 23) && (mi <=? 59) && (sec <=? 59) then
          let t := days_from_civil y mo d * ms_per_day
                   + h * 3600000 + mi * 60000 + sec * 1000 + ms in
          Some (if Z.abs t <=? max_time then Some t else None)
        else None
    | _ => None
    end)))))))))))))).

End IsoDate.

(** ** The JavaScript runtime's implementation-defined conversions

    [Number] values are not modelled; their conversion to a time value
    and to a string, and the engine's parser for date strings outside the
    ISO form above, are parameters of everything that reads a cursor. *)
Record Runtime : Type := {
  number_time : jsstring -> option Z;
  number_to_string : jsstring -> jsstring;
  parse_fallback : jsstring -> option Z
}.

(** A JavaScript value read out of a parsed cursor. *)
Inductive jsval : Type :=
| VUndef
| VJson (j : Json.json).

Module Cursor.
Import Json.

(** [v[n]] for [n] = 0 or 1; [None] is the TypeError of indexing [null]. *)
Definition index (v : json) (n : nat) : option jsval :=
  match v with
  | JNull => None
  | JBool _ | JNum _ => Some VUndef
  | JStr s =>
      Some (match nth_error s n with Some u => VJson (JStr [u]) | None => VUndef end)
  | JArr l => Some (match nth_error l n with Some x => VJson x | None => VUndef end)
  | JObj kv =>
      Some (fold_left (fun acc '(k, x) =>
              if list_eq_dec Z.eq_dec k [48 + Z.of_nat n] then VJson x else acc) kv VUndef)
  end.

Definition object_text : jsstring :=
  [91; 111; 98; 106; 101; 99; 116; 32; 79; 98; 106; 101; 99; 116; 93].

Section WithRuntime.
Variable rt : Runtime.

(** [Date.parse] of a string. *)
Definition date_parse (s : jsstring) : option Z :=
  match IsoDate.iso_parse s with
  | Some r => r
  | None => parse_fallback rt s
  end.

(** [String(x)] of an array element inside [Array#join]. *)
Fixpoint element_text (j : json) : jsstring :=
  match j with
  | JNull => []
  | JBool true => [116; 114; 117; 101]
  | JBool false => [102; 97; 108; 115; 101]
  | JNum lx => number_to_string rt lx
  | JStr s => s
  | JArr l =>
      (fix go (l : list json) : jsstring :=
         match l with
         | [] => []
         | [x] => element_text x
         | x :: r => element_text x ++ [44] ++ go r
         end) l
  | JObj _ => object_text
  end.

(** [new Date(x)]. *)
Definition new_date (x : jsval) : option Z :=
  match x with
  | VUndef => None
  | VJson JNull => Some 0
  | VJson (JBool b) => Some (if b then 1 else 0)
  | VJson (JNum lx) => number_time rt lx
  | VJson (JStr s) => date_parse s
  | VJson (JArr _ as a) => date_parse (element_text a)
  | VJson (JObj _) => date_parse object_text
  end.

(** The body of the [try] block of [getPaginatedShopOrders]:
    [cursorData = JSON.parse(Buffer.from(cursor, "base64").toString("utf-8"))]
    and then [new Date(cursorData[0])] and [cursorData[1]].  [None] is
    an exception, which the [catch] swallows. *)
Definition decode (cursor : jsstring) : option (option Z * jsval) :=
  match parse (Utf8.decode (Base64.decode cursor)) with
  | None => None
  | Some data =>
      match index data 0 with
      | None => None
      | Some a =>
          match index data 1 with
          | None => None
          | Some b => Some (new_date a, b)
          end
      end
  end.

End WithRuntime.

(** [Buffer.from(JSON.stringify([created_at.toISOString(), id])).toString("base64")]. *)
Definition encode (created_at : Z) (id : jsstring) : jsstring :=
  Base64.encode (Utf8.encode (stringify_pair (IsoDate.to_iso_string created_at) id)).

End Cursor.

(** ** Data model *)

(** [OrderStatus] of the Prisma schema: the members the source names, and
    the others it reaches through [default]. *)
Inductive OrderStatus : Type :=
| COMPLETED
| OUT_FOR_DELIVERY
| CANCELLED
| OTHER_STATUS (tag : nat).

Definition status_eqb (a b : OrderStatus) : bool :=
  match a, b with
  | COMPLETED, COMPLETED | OUT_FOR_DELIVERY, OUT_FOR_DELIVERY | CANCELLED, CANCELLED => true
  | OTHER_STATUS x, OTHER_STATUS y => Nat.eqb x y
  | _, _ => false
  end.

Module Order.
Record t : Type := {
  id : jsstring;
  display_id : jsstring;
  shop_id : jsstring;
  user_id : jsstring;
  order_status : OrderStatus;
  payment_status : jsstring;
  total_price : Z;
  created_at : Z;
  updated_at : Z;
  delivery_address_snapshot : jsstring;
  assigned_to : option jsstring;
  actual_delivery_time : option Z
}.
End Order.

Module User.
Record t : Type := { id : jsstring; email : jsstring }.
End User.

(** The rows of the store. *)
Record Db : Type := { orders : list Order.t; users : list User.t }.

Fixpoint str_eqb (a b : jsstring) : bool :=
  match a, b with
  | [], [] => true
  | x :: a', y :: b' => (x =? y) && str_eqb a' b'
  | _, _ => false
  end.

(** The store's order on text: code unit by code unit. *)
Fixpoint str_ltb (a b : jsstring) : bool :=
  match a, b with
  | [], [] => false
  | [], _ :: _ => true
  | _ :: _, [] => false
  | x :: a', y :: b' => (x <? y) || ((x =? y) && str_ltb a' b')
  end.

(** [ILIKE '%term%']: case-insensitive substring test (ASCII letters fold). *)
Definition fold_case (u : Z) : Z := if (65 <=? u) && (u <=? 90) then u + 32 else u.

Fixpoint prefixb (p s : jsstring) : bool :=
  match p, s with
  | [], _ => true
  | x :: p', y :: s' => (x =? y) && prefixb p' s'
  | _ :: _, [] => false
  end.

Fixpoint infixb (p s : jsstring) : bool :=
  prefixb p s || match s with [] => false | _ :: s' => infixb p s' end.

Definition contains_insensitive (term s : jsstring) : bool :=
  infixb (map fold_case term) (map fold_case s).

(** ** Prisma's [where] objects, [findMany], [update] and [updateMany] *)

Inductive js_error : Type := TypeError | PrismaValidationError | RecordNotFound.

Inductive outcome (A : Type) : Type :=
| Ok (a : A)
| Throw (e : js_error).
Arguments Ok {A} a.
Arguments Throw {A} e.

Definition bind {A B} (m : outcome A) (k : A -> outcome B) : outcome B :=
  match m with
  | Ok a => k a
  | Throw e => Throw e
  end.

Notation "'let*' x ':=' m 'in' k" := (bind m (fun x => k))
  (at level 200, x name, m at level 100, k at level 200).

(** The known request errors of Prisma's client that the writes below can
    raise: [P2002] a unique constraint failed, [P2003] a foreign key
    constraint failed, [P2014] a nested [connect] would break a required
    relation, [P2025] a record to update, delete or connect was not found. *)
Inductive prisma_code : Type := P2002 | P2003 | P2014 | P2025.

Inductive presult (A : Type) : Type :=
| POk (a : A)
| PErr (c : prisma_code).
Arguments POk {A} a.
Arguments PErr {A} c.

(** The keys the repository writes into a [where] object. *)
Inductive Key : Type :=
| K_shop_id | K_order_status | K_created_at | K_id | K_display_id
| K_delivery_address_snapshot | K_user | K_email | K_OR | K_AND.

Definition key_eqb (a b : Key) : bool :=
  match a, b with
  | K_shop_id, K_shop_id | K_order_status, K_order_status | K_created_at, K_created_at
  | K_id, K_id | K_display_id, K_display_id
  | K_delivery_address_snapshot, K_delivery_address_snapshot
  | K_user, K_user | K_email, K_email | K_OR, K_OR | K_AND, K_AND => true
  | _, _ => false
  end.

(** An operand as the client hands it over: a string, a [Date] ([None]
    for an invalid one), an enum member, or a raw value read from JSON. *)
Inductive Scalar : Type :=
| SStr (s : jsstring)
| SDate (d : option Z)
| SStatus (st : OrderStatus)
| SVal (v : jsval).

(** A [where] object is a JavaScript object: keys with their filters. *)
Inductive Where : Type :=
| WObj (entries : list (Key * Filter))
with Filter : Type :=
| FEq (v : Scalar)                    (* [k: v] or [k: { equals: v }] *)
| FLt (v : Scalar)                    (* [k: { lt: v }] *)
| FRange (gte lte : Scalar)           (* [k: { gte, lte }] *)
| FContainsI (term : jsstring)        (* [k: { contains: term, mode: "insensitive" }] *)
| FRel (w : Where)                    (* relation filter [user: { ... }] *)
| FList (ws : list Where).            (* [OR: [...]] and [AND: [...]] *)

(** [obj[k] = v]: replace the entry of [k], or add it. *)
Fixpoint obj_set (es : list (Key * Filter)) (k : Key) (f : Filter) : list (Key * Filter) :=
  match es with
  | [] => [(k, f)]
  | (k', f') :: r => if key_eqb k k' then (k, f) :: r else (k', f') :: obj_set r k f
  end.

(** [{ ...a, ...b }]: the entries of [b] overwrite those of [a] with the same key. *)
Definition obj_spread (a b : list (Key * Filter)) : list (Key * Filter) :=
  fold_left (fun acc '(k, f) => obj_set acc k f) b a.

Definition user_holds (w : Where) (u : User.t) : bool :=
  match w with
  | WObj es =>
      forallb (fun '(k, f) =>
        match k, f with
        | K_email, FContainsI t => contains_insensitive t (User.email u)
        | _, _ => false
        end) es
  end.

Definition user_valid (w : Where) : bool :=
  match w with
  | WObj es =>
      forallb (fun '(k, f) => match k, f with K_email, FContainsI _ => true | _, _ => false end) es
  end.

(** The client's validation of a [where] object: an invalid [Date] or a
    non-string operand for [id] is rejected; an [undefined] operand is
    dropped, as Prisma does with [undefined]. *)
Fixpoint w_valid (w : Where) : bool :=
  match w with
  | WObj es =>
      (fix go (es : list (Key * Filter)) : bool :=
         match es with
         | [] => true
         | (k, f) :: r => f_valid k f && go r
         end) es
  end
with f_valid (k : Key) (f : Filter) : bool :=
  match k, f with
  | K_shop_id, FEq (SStr _) => true
  | K_order_status, FEq (SStatus _) => true
  | K_created_at, FEq (SDate (Some _)) => true
  | K_created_at, FLt (SDate (Some _)) => true
  | K_created_at, FRange (SDate (Some _)) (SDate (Some _)) => true
  | K_id, FLt (SStr _) => true
  | K_id, FLt (SVal VUndef) => true
  | K_id, FLt (SVal (VJson (Json.JStr _))) => true
  | K_display_id, FContainsI _ => true
  | K_delivery_address_snapshot, FContainsI _ => true
  | K_user, FRel w => user_valid w
  | K_OR, FList ws | K_AND, FList ws =>
      (fix go (ws : list Where) : bool :=
         match ws with
         | [] => true
         | w :: r => w_valid w && go r
         end) ws
  | _, _ => false
  end.

(** The rows a (valid) [where] object selects; the entries of an object
    are conjoined. *)
Fixpoint w_holds (db : Db) (w : Where) (o : Order.t) : bool :=
  match w with
  | WObj es =>
      (fix go (es : list (Key * Filter)) : bool :=
         match es with
         | [] => true
         | (k, f) :: r => f_holds db k f o && go r
         end) es
  end
with f_holds (db : Db) (k : Key) (f : Filter) (o : Order.t) : bool :=
  match k, f with
  | K_shop_id, FEq (SStr s) => str_eqb (Order.shop_id o) s
  | K_order_status, FEq (SStatus st) => status_eqb (Order.order_status o) st
  | K_created_at, FEq (SDate (Some d)) => Order.created_at o =? d
  | K_created_at, FLt (SDate (Some d)) => Order.created_at o <? d
  | K_created_at, FRange (SDate (Some a)) (SDate (Some b)) =>
      (a <=? Order.created_at o) && (Order.created_at o <=? b)
  | K_id, FLt (SStr s) => str_ltb (Order.id o) s
  | K_id, FLt (SVal VUndef) => true
  | K_id, FLt (SVal (VJson (Json.JStr s))) => str_ltb (Order.id o) s
  | K_display_id, FContainsI t => contains_insensitive t (Order.display_id o)
  | K_delivery_address_snapshot, FContainsI t =>
      contains_insensitive t (Order.delivery_address_snapshot o)
  | K_user, FRel w =>
      existsb (fun u => str_eqb (User.id u) (Order.user_id o) && user_holds w u) (users db)
  | K_OR, FList ws =>
      (fix go (ws : list Where) : bool :=
         match ws with
         | [] => false
         | w :: r => w_holds db w o || go r
         end) ws
  | K_AND, FList ws =>
      (fix go (ws : list Where) : bool :=
         match ws with
         | [] => true
         | w :: r => w_holds db w o && go r
         end) ws
  | _, _ => false
  end.

Inductive Dir : Type := Asc | Desc.

Definition str_compare (a b : jsstring) : comparison :=
  if str_eqb a b then Eq else if str_ltb a b then Lt else Gt.

Definition key_compare (k : Key) (o1 o2 : Order.t) : comparison :=
  match k with
  | K_created_at => Z.compare (Order.created_at o1) (Order.created_at o2)
  | K_id => str_compare (Order.id o1) (Order.id o2)
  | _ => Eq
  end.

(** [Lt] when [o1] comes first under [orderBy]. *)
Fixpoint order_compare (ob : list (Key * Dir)) (o1 o2 : Order.t) : comparison :=
  match ob with
  | [] => Eq
  | (k, d) :: r =>
      match (match d with Asc => key_compare k o1 o2 | Desc => key_compare k o2 o1 end) with
      | Eq => order_compare r o1 o2
      | c => c
      end
  end.

(** How the store breaks the ties of the requested ordering. Prisma appends
    the primary key to an empty [orderBy] only; rows that tie under a
    non-empty one come in an order the store chooses, which may differ
    from one query to the next. The model breaks such ties by ascending id:
    one of the orders the store may produce, not a rule it follows. *)
Definition total_order_by (ob : list (Key * Dir)) : list (Key * Dir) :=
  if existsb (fun '(k, _) => key_eqb k K_id) ob then ob else ob ++ [(K_id, Asc)].

Fixpoint insert_by (ob : list (Key * Dir)) (x : Order.t) (l : list Order.t) : list Order.t :=
  match l with
  | [] => [x]
  | y :: r => match order_compare ob x y with
              | Gt => y :: insert_by ob x r
              | _ => x :: y :: r
              end
  end.

Definition sort_by (ob : list (Key * Dir)) (l : list Order.t) : list Order.t :=
  fold_right (insert_by ob) [] l.

Record FindArgs : Type := {
  where_ : Where;
  orderBy : list (Key * Dir);
  cursor : option jsstring;
  skip : nat;
  take : nat
}.

(** [prisma.order.findMany(args)]: validate, filter, sort; a cursor keeps
    the rows from the cursor row on (the cursor row is looked up by id; an
    unknown id selects nothing); then [skip] and [take]. *)
Definition find_many (db : Db) (a : FindArgs) : outcome (list Order.t) :=
  if negb (w_valid (where_ a)) then Throw PrismaValidationError
  else
    let ob := total_order_by (orderBy a) in
    let rows := sort_by ob (filter (w_holds db (where_ a)) (orders db)) in
    let rows :=
      match cursor a with
      | None => rows
      | Some c =>
          match find (fun o => str_eqb (Order.id o) c) (orders db) with
          | None => []
          | Some co => filter (fun o => negb (match order_compare ob o co with
                                               | Lt => true | _ => false end)) rows
          end
      end in
    Ok (firstn (take a) (skipn (skip a) rows)).

(** The row written by [prisma.order.update({ where: { id }, data })] or
    [updateMany] where [data] sets the status and, when they are not
    [undefined], [assigned_to] and [actual_delivery_time]; Prisma sets the
    [@updatedAt] column [updated_at] to the time [now] of the write. *)
Definition set_status (st : OrderStatus) (assigned : option jsstring)
    (delivered : option Z) (now : Z) (o : Order.t) : Order.t :=
  {| Order.id := Order.id o;
     Order.display_id := Order.display_id o;
     Order.shop_id := Order.shop_id o;
     Order.user_id := Order.user_id o;
     Order.order_status := st;
     Order.payment_status := Order.payment_status o;
     Order.total_price := Order.total_price o;
     Order.created_at := Order.created_at o;
     Order.updated_at := now;
     Order.delivery_address_snapshot := Order.delivery_address_snapshot o;
     Order.assigned_to :=
       match assigned with Some a => Some a | None => Order.assigned_to o end;
     Order.actual_delivery_time :=
       match delivered with Some d => Some d | None => Order.actual_delivery_time o end |}.


(** ** [ShopServices] *)

Module Shop.
(** A row of the [Shop] table: its primary key, its owner and two of its
    other columns. *)
Record t : Type := {
  id : jsstring;
  owner_id : jsstring;
  name : jsstring;
  description : jsstring
}.
End Shop.

Module ShopServices.

Section Schema.
(** The checks of the schema that the service does not show: the owner
    [connect] finding its user, required and checked columns and further
    unique columns on [create] and [update], and the referential actions of
    the relations on [delete]. [owner_id] and [id] are unique: the service
    looks a shop up with [findUnique] by each. *)
Variable create_check : list Shop.t -> Shop.t -> option prisma_code.
Variable update_check : list Shop.t -> Shop.t -> Shop.t -> option prisma_code.
Variable delete_check : Shop.t -> option prisma_code.

(** [getShopById(shop_id)]: [prisma.shop.findUnique({ where: { id } })]. *)
Definition getShopById (shops : list Shop.t) (shop_id : jsstring) : option Shop.t :=
  find (fun s => str_eqb (Shop.id s) shop_id) shops.

(** [getShopByOwnerId(ownerId)]: [findUnique({ where: { owner_id } })]. *)
Definition getShopByOwnerId (shops : list Shop.t) (ownerId : jsstring) : option Shop.t :=
  find (fun s => str_eqb (Shop.owner_id s) ownerId) shops.

(** [createShop(data)]: [prisma.shop.create({ data })] with a
    [Prisma.ShopCreateInput], whose [owner: { connect }] gives the row its
    [owner_id]. The engine resolves the [connect] first: an owner who
    already has a shop is refused with [P2014]. The database then checks
    the row's columns and relations, and last the primary key ([P2002]).
    [data] carries the row's [id], given by the caller or generated by its
    default. *)
Definition createShop (shops : list Shop.t) (data : Shop.t)
    : presult (list Shop.t * Shop.t) :=
  if existsb (fun s => str_eqb (Shop.owner_id s) (Shop.owner_id data)) shops then PErr P2014
  else match create_check shops data with
       | Some c => PErr c
       | None =>
           if existsb (fun s => str_eqb (Shop.id s) (Shop.id data)) shops then PErr P2002
           else POk (shops ++ [data], data)
       end.

(** [updateShop(shop_id, data)]: [prisma.shop.update({ where: { id }, data })];
    the update input [data] computes the new row from the old one. As in
    [createShop], an [owner: { connect }] to a user who has another shop is
    refused with [P2014] before the database checks the row, and the
    primary key comes last. *)
Definition updateShop (shops : list Shop.t) (shop_id : jsstring)
    (data : Shop.t -> Shop.t) : presult (list Shop.t * Shop.t) :=
  match getShopById shops shop_id with
  | None => PErr P2025
  | Some old =>
      let row := data old in
      if existsb (fun s => negb (str_eqb (Shop.id s) shop_id) &&
                           str_eqb (Shop.owner_id s) (Shop.owner_id row)) shops
      then PErr P2014
      else match update_check shops old row with
           | Some c => PErr c
           | None =>
               if existsb (fun s => negb (str_eqb (Shop.id s) shop_id) &&
                                    str_eqb (Shop.id s) (Shop.id row)) shops
               then PErr P2002
               else POk (map (fun s => if str_eqb (Shop.id s) shop_id then row else s) shops, row)
           end
  end.

(** [deleteShop(shop_id)]: [prisma.shop.delete({ where: { id } })]. *)
Definition deleteShop (shops : list Shop.t) (shop_id : jsstring)
    : presult (list Shop.t * Shop.t) :=
  match getShopById shops shop_id with
  | None => PErr P2025
  | Some old =>
      match delete_check old with
      | Some c => PErr c
      | None => POk (filter (fun s => negb (str_eqb (Shop.id s) shop_id)) shops, old)
      end
  end.

End Schema.

End ShopServices.

(** ** [OrderRepository] *)
Module OrderRepository.

(** [updateStatus(order_id, order_status, assigned_to?, actual_delivery_time?)]
    at time [now]: the updated row, or Prisma's record-not-found error. *)
Definition updateStatus (db : Db) (now : Z) (order_id : jsstring) (order_status : OrderStatus)
    (assigned_to : option jsstring) (actual_delivery_time : option Z)
    : outcome (Db * Order.t) :=
  match find (fun o => str_eqb (Order.id o) order_id) (orders db) with
  | None => Throw RecordNotFound
  | Some o =>
      let upd o' := if str_eqb (Order.id o') order_id
                    then set_status order_status assigned_to actual_delivery_time now o'
                    else o' in
      Ok ({| orders := map upd (orders db); users := users db |},
          set_status order_status assigned_to actual_delivery_time now o)
  end.

Definition in_ids (ids : list jsstring) (o : Order.t) : bool :=
  existsb (str_eqb (Order.id o)) ids.

(** [batchUpdateStatus(order_ids, order_status)] at time [now]: [updateMany]
    with [where: { id: { in: order_ids } }] and [data: { order_status }];
    [count] is the number of rows matched. *)
Definition batchUpdateStatus (db : Db) (now : Z) (order_ids : list jsstring)
    (order_status : OrderStatus) : outcome (Db * Z) :=
  Ok ({| orders := map (fun o => if in_ids order_ids o
                                 then set_status order_status None None now o else o)
                       (orders db);
         users := users db |},
      Z.of_nat (length (filter (in_ids order_ids) (orders db)))).

(** [getOrderById(order_id)] and [findById(orderId)]:
    [prisma.order.findUnique({ where: { id } })]. *)
Definition getOrderById (db : Db) (order_id : jsstring) : option Order.t :=
  find (fun o => str_eqb (Order.id o) order_id) (orders db).

Definition findById (db : Db) (orderId : jsstring) : option Order.t :=
  find (fun o => str_eqb (Order.id o) orderId) (orders db).

(** [getOrdersByUserId(user_id)], [getOrdersByShopId(shop_id)] and
    [getOrdersByIds(order_ids)] without options: [findMany({ where })]
    with no [orderBy], whose rows come in the store's order. *)
Definition getOrdersByUserId (db : Db) (user_id : jsstring) : list Order.t :=
  filter (fun o => str_eqb (Order.user_id o) user_id) (orders db).

Definition getOrdersByShopId (db : Db) (shop_id : jsstring) : list Order.t :=
  filter (fun o => str_eqb (Order.shop_id o) shop_id) (orders db).

Definition getOrdersByIds (db : Db) (order_ids : list jsstring) : list Order.t :=
  filter (in_ids order_ids) (orders db).

(** [findMany(options)]: [prisma.order.findMany(options)]. *)
Definition findMany (db : Db) (options : FindArgs) : outcome (list Order.t) :=
  find_many db options.

(** [count(where?)]: [prisma.order.count({ where })]; an [undefined]
    [where] counts every row. *)
Definition count (db : Db) (where_opt : option Where) : outcome Z :=
  match where_opt with
  | None => Ok (Z.of_nat (length (orders db)))
  | Some w =>
      if w_valid w then Ok (Z.of_nat (length (filter (w_holds db w) (orders db))))
      else Throw PrismaValidationError
  end.

Section Schema.
(** The checks of the schema that the repository does not show: the
    nested [connect]s of an order's relations (user, shop), which the engine
    resolves first ([P2025]), then the row's required and checked columns
    and further unique columns, which the database checks before the
    primary key. *)
Variable create_check : Db -> Order.t -> option prisma_code.
Variable update_check : Db -> Order.t -> Order.t -> option prisma_code.

(** [create(data, tx?)]: [(tx || prisma).order.create({ data })]; a
    transaction client writes the same table. [data] carries the row's
    [id], given by the caller or generated by its default. *)
Definition create (db : Db) (data : Order.t) : presult (Db * Order.t) :=
  match create_check db data with
  | Some c => PErr c
  | None =>
      if existsb (fun o => str_eqb (Order.id o) (Order.id data)) (orders db) then PErr P2002
      else POk ({| orders := orders db ++ [data]; users := users db |}, data)
  end.

(** [update(orderId, data)]: [prisma.order.update({ where: { id }, data })];
    the update input [data] computes the new row from the old one. *)
Definition update (db : Db) (orderId : jsstring) (data : Order.t -> Order.t)
    : presult (Db * Order.t) :=
  match getOrderById db orderId with
  | None => PErr P2025
  | Some old =>
      let row := data old in
      match update_check db old row with
      | Some c => PErr c
      | None =>
          if existsb (fun o => negb (str_eqb (Order.id o) orderId) &&
                               str_eqb (Order.id o) (Order.id row)) (orders db)
          then PErr P2002
          else POk ({| orders := map (fun o => if str_eqb (Order.id o) orderId then row else o)
                                     (orders db);
                       users := users db |}, row)
      end
  end.
End Schema.

Module Opts.
(** [GetPaginatedOrdersOptions]; the page size is a non-negative integer. *)
Record t : Type := {
  shop_id : jsstring;
  limit : option nat;
  cursor : option jsstring;
  searchTerm : option jsstring;
  orderStatus : option OrderStatus;
  dateRange : option (Z * Z)
}.
End Opts.

Record Page : Type := { page_orders : list Order.t; nextCursor : option jsstring }.

(** Truthiness of an optional string: [undefined] and [""] are falsy. *)
Definition truthy (s : option jsstring) : bool :=
  match s with Some (_ :: _) => true | _ => false end.

Definition search_or (t : jsstring) : Filter :=
  FList [WObj [(K_display_id, FContainsI t)];
         WObj [(K_delivery_address_snapshot, FContainsI t)];
         WObj [(K_user, FRel (WObj [(K_email, FContainsI t)]))]].

(** The [where] object both strategies build, in the order the source
    assigns its keys. *)
Definition base_where (shop_id : jsstring) (searchTerm : option jsstring)
    (orderStatus : option OrderStatus) (dateRange : option (Z * Z))
    : list (Key * Filter) :=
  let w := [(K_shop_id, FEq (SStr shop_id))] in
  let w := match orderStatus with
           | Some st => obj_set w K_order_status (FEq (SStatus st))
           | None => w
           end in
  let w := match dateRange with
           | Some (from, to) =>
               obj_set w K_created_at (FRange (SDate (Some from)) (SDate (Some to)))
           | None => w
           end in
  match searchTerm with
  | Some t => if truthy searchTerm then obj_set w K_OR (search_or t) else w
  | None => w
  end.

(** [getPaginatedShopOrdersFromDB] (Strategy A). *)
Definition getPaginatedShopOrdersFromDB (db : Db) (o : Opts.t) : outcome Page :=
  let limit := match Opts.limit o with Some l => l | None => 10%nat end in
  let where_obj := base_where (Opts.shop_id o) (Opts.searchTerm o)
                          (Opts.orderStatus o) (Opts.dateRange o) in
  let has_cursor := truthy (Opts.cursor o) in
  let* rows := find_many db
    {| where_ := WObj where_obj;
       orderBy := [(K_created_at, Desc)];
       cursor := if has_cursor then Opts.cursor o else None;
       skip := if has_cursor then 1%nat else 0%nat;
       take := S limit |} in
  if Nat.ltb limit (length rows) then
    (* [const nextItem = orders.pop(); nextCursor = nextItem?.id] *)
    match rev rows with
    | next_item :: kept => Ok {| page_orders := rev kept; nextCursor := Some (Order.id next_item) |}
    | [] => Ok {| page_orders := rows; nextCursor := None |}
    end
  else Ok {| page_orders := rows; nextCursor := None |}.

(** [orders[i]] for an integer [i]: [undefined] out of range. *)
Definition js_at {A} (l : list A) (i : Z) : option A :=
  if i <? 0 then None else nth_error l (Z.to_nat i).

Section WithRuntime.
Variable rt : Runtime.

(** The [cursorCondition] object of the search path. *)
Definition cursor_condition (cursor : option jsstring) : list (Key * Filter) :=
  match cursor with
  | Some c =>
      if truthy cursor then
        match Cursor.decode rt c with
        | Some (d, v1) =>
            [(K_OR, FList [WObj [(K_created_at, FLt (SDate d))];
                           WObj [(K_AND, FList [WObj [(K_created_at, FEq (SDate d))];
                                                WObj [(K_id, FLt (SVal v1))]])]])]
        | None => []
        end
      else []
  | None => []
  end.

(** The search path of [getPaginatedShopOrders] (Strategy B): the code
    after [if (!searchTerm) { ... }]. *)
Definition searchShopOrders (db : Db) (o : Opts.t) : outcome Page :=
  let limit := match Opts.limit o with Some l => l | None => 10%nat end in
  let where_obj := base_where (Opts.shop_id o) (Opts.searchTerm o)
                          (Opts.orderStatus o) (Opts.dateRange o) in
  let* rows := find_many db
    {| where_ := WObj (obj_spread where_obj (cursor_condition (Opts.cursor o)));
       orderBy := [(K_created_at, Desc); (K_id, Desc)];
       cursor := None;
       skip := 0%nat;
       take := S limit |} in
  if Nat.ltb limit (length rows) then
    match js_at rows (Z.of_nat limit - 1) with
    | None => Throw TypeError        (* [lastOrder.created_at] of [undefined] *)
    | Some last_order =>
        Ok {| page_orders := removelast rows;
              nextCursor := Some (Cursor.encode (Order.created_at last_order)
                                                (Order.id last_order)) |}
    end
  else Ok {| page_orders := rows; nextCursor := None |}.

(** [getPaginatedShopOrders]. *)
Definition getPaginatedShopOrders (db : Db) (o : Opts.t) : outcome Page :=
  let limit := match Opts.limit o with Some l => l | None => 10%nat end in
  if negb (truthy (Opts.searchTerm o)) then
    getPaginatedShopOrdersFromDB db
      {| Opts.shop_id := Opts.shop_id o; Opts.limit := Some limit;
         Opts.cursor := Opts.cursor o; Opts.searchTerm := None;
         Opts.orderStatus := Opts.orderStatus o; Opts.dateRange := Opts.dateRange o |}
  else searchShopOrders db o.

End WithRuntime.

End OrderRepository.

(** Walk the listing page by page from an absent cursor until
    [nextCursor] is absent; [None] if a call throws or [fuel] runs out. *)
Fixpoint walk (fuel : nat) (page : option jsstring -> outcome OrderRepository.Page)
    (cur : option jsstring) : option (list Order.t) :=
  match fuel with
  | O => None
  | S f =>
      match page cur with
      | Throw _ => None
      | Ok p =>
          match OrderRepository.nextCursor p with
          | None => Some (OrderRepository.page_orders p)
          | Some c =>
              match walk f page (Some c) with
              | Some rest => Some (OrderRepository.page_orders p ++ rest)
              | None => None
              end
          end
      end
  end.

(** ** Concrete data *)

Definition mk_order (id display : jsstring) (created : Z) : Order.t :=
  {| Order.id := id; Order.display_id := display; Order.shop_id := [115];
     Order.user_id := [117]; Order.order_status := OTHER_STATUS 0;
     Order.payment_status := []; Order.total_price := 100; Order.created_at := created;
     Order.updated_at := created; Order.delivery_address_snapshot := [];
     Order.assigned_to := None; Order.actual_delivery_time := None |}.

(** Shop "s" with orders A (10:00, id "3", display "A"), B (10:00, id "2",
    display "B") and C (09:59, id "9", display "AC") of user "u"
    (e-mail "u@x"). *)
Definition order_A := mk_order [51] [65] 36000000.
Definition order_B := mk_order [50] [66] 36000000.
Definition order_C := mk_order [57] [65; 67] 35940000.
Definition db_ABC : Db :=
  {| orders := [order_A; order_B; order_C];
     users := [{| User.id := [117]; User.email := [117; 64; 120] |}] |}.

(** A runtime whose implementation-defined conversions all fail. *)
Definition rt0 : Runtime :=
  {| number_time := fun _ => None; number_to_string := fun x => x;
     parse_fallback := fun _ => None |}.

(** A listing request for shop "s" without status or date filters. *)
Definition req (lim : nat) (c s : option jsstring) : OrderRepository.Opts.t :=
  {| OrderRepository.Opts.shop_id := [115]; OrderRepository.Opts.limit := Some lim;
     OrderRepository.Opts.cursor := c; OrderRepository.Opts.searchTerm := s;
     OrderRepository.Opts.orderStatus := None; OrderRepository.Opts.dateRange := None |}.

(** Every order of the shop satisfying the filters and the search term. *)
Definition matching (db : Db) (o : OrderRepository.Opts.t) : list Order.t :=
  filter (w_holds db (WObj (OrderRepository.base_where (OrderRepository.Opts.shop_id o)
                              (OrderRepository.Opts.searchTerm o)
                              (OrderRepository.Opts.orderStatus o)
                              (OrderRepository.Opts.dateRange o))))
         (orders db).

(** [o] with another cursor. *)
Definition with_cursor (o : OrderRepository.Opts.t) (c : option jsstring)
    : OrderRepository.Opts.t :=
  {| OrderRepository.Opts.shop_id := OrderRepository.Opts.shop_id o;
     OrderRepository.Opts.limit := OrderRepository.Opts.limit o;
     OrderRepository.Opts.cursor := c;
     OrderRepository.Opts.searchTerm := OrderRepository.Opts.searchTerm o;
     OrderRepository.Opts.orderStatus := OrderRepository.Opts.orderStatus o;
     OrderRepository.Opts.dateRange := OrderRepository.Opts.dateRange o |}.

(** A store whose only order, A, is already [COMPLETED]. *)
Definition db_completed : Db :=
  {| orders := [set_status COMPLETED None None 36000001 order_A]; users := [] |}.

(** Shops "1" of owner "u" and "2" of owner "v". *)
Definition shop_s1 : Shop.t :=
  {| Shop.id := [49]; Shop.owner_id := [117]; Shop.name := [78]; Shop.description := [] |}.
Definition shop_s2 : Shop.t :=
  {| Shop.id := [50]; Shop.owner_id := [118]; Shop.name := [77]; Shop.description := [] |}.

(** A new shop "3" of owner "u", and a new shop "1" of owner "w". *)
Definition shop_u3 : Shop.t :=
  {| Shop.id := [51]; Shop.owner_id := [117]; Shop.name := []; Shop.description := [] |}.
Definition shop_w1 : Shop.t :=
  {| Shop.id := [49]; Shop.owner_id := [119]; Shop.name := []; Shop.description := [] |}.

(** No two keys of the list are equal. *)
Fixpoint keys_distinct (ks : list jsstring) : bool :=
  match ks with
  | [] => true
  | k :: r => negb (existsb (str_eqb k) r) && keys_distinct r
  end.

(** The unique columns [id] and [owner_id] hold distinct values. *)
Definition shops_unique (shops : list Shop.t) : bool :=
  keys_distinct (map Shop.id shops) && keys_distinct (map Shop.owner_id shops).


(** ** Checks and predicates used by the proofs of the cursor codec *)

(** The sextet [v] survives one character of [Base64.encode] and [Base64.sextets]. *)
Definition sextet_check (v : Z) : bool :=
  negb (Base64.char_of v mod 256 =? 61)
  && match Base64.value_of (Base64.char_of v mod 256) with
     | Some w => w =? v
     | None => false
     end.

(** A Unicode scalar value: a code point that is not a surrogate. *)
Definition scalar (cp : Z) : Prop := 0 <= cp < 1114112 /\ ~ (55296 <= cp <= 57343).

(** Well-formed UTF-16: every surrogate is part of a pair. *)
Inductive wf16 : jsstring -> Prop :=
| wf16_nil : wf16 []
| wf16_bmp u s : 0 <= u < 65536 -> Utf8.is_high u = false -> Utf8.is_low u = false ->
    wf16 s -> wf16 (u :: s)
| wf16_pair h l s : 0 <= h < 65536 -> 0 <= l < 65536 ->
    Utf8.is_high h = true -> Utf8.is_low l = true ->
    wf16 s -> wf16 (h :: l :: s).

(** The four hex digits of [Json.unicode_escape u] read back as [u]. *)
Definition hex4_check (u : Z) : bool :=
  match Json.hex4 (Json.hex_digit (u / 4096)) (Json.hex_digit ((u / 256) mod 16))
                  (Json.hex_digit ((u / 16) mod 16)) (Json.hex_digit (u mod 16)) with
  | Some v => v =? u
  | None => false
  end.

(** Every element is a UTF-16 code unit. *)
Definition units (s : jsstring) : Prop := Forall (fun u => 0 <= u < 65536) s.

(** The part of [IsoDate.civil_from_days] that depends on the day of the era
    only: year of the era, month and day. *)
Definition civil_doe (doe : Z) : Z * Z * Z :=
  let yoe := (doe - doe / 1460 + doe / 36524 - doe / 146096) / 365 in
  let doy := doe - (365 * yoe + yoe / 4 - yoe / 100) in
  let mp := (5 * doy + 2) / 153 in
  let d := doy - (153 * mp + 2) / 5 + 1 in
  let m := if mp <? 10 then mp + 3 else mp - 9 in
  (yoe, m, d).

(** The day of the era [IsoDate.days_from_civil] computes. *)
Definition doe_of (yoe m d : Z) : Z :=
  yoe * 365 + yoe / 4 - yoe / 100 + ((153 * (if 2 <? m then m - 3 else m + 9) + 2) / 5 + d - 1).

(** [IsoDate.civil_from_days] and [IsoDate.days_from_civil] agree at the day
    [doe] of an era. *)
Definition civil_check (doe : Z) : bool :=
  let '(yoe, m, d) := civil_doe doe in
  (0 <=? yoe) && (yoe <=? 399) && (1 <=? m) && (m <=? 12) && (1 <=? d)
  && (d <=? IsoDate.days_in_month (if m <=? 2 then yoe + 1 else yoe) m)
  && (doe_of yoe m d =? doe).

(** * Properties *)

Import OrderRepository.

(** ** Facts about the store *)

Lemma insert_by_length : forall ob x l, length (insert_by ob x l) = S (length l).
Proof.
  induction l as [|y r IH]; simpl; [reflexivity|].
  destruct (order_compare ob x y); simpl; auto.
Qed.

Lemma sort_by_length : forall ob l, length (sort_by ob l) = length l.
Proof.
  induction l as [|x r IH]; simpl; [reflexivity|].
  rewrite insert_by_length, IH. reflexivity.
Qed.

Lemma find_many_length : forall db a rows,
  find_many db a = Ok rows -> (length rows <= take a)%nat.
Proof.
  intros db a rows H. unfold find_many in H.
  destruct (negb (w_valid (where_ a))); [discriminate|].
  injection H as <-. rewrite length_firstn. lia.
Qed.



(** ** C1 *)

(** C1 (refuted at a concrete store): walking Strategy A over the shop of
    A, B, C with page size 2 returns B and A and never C, which matches the
    filters; walking Strategy B with search term "A" and page size 1
    returns B, which does not match the search term. *)
Theorem C1_walk_gap_and_foreign_rows : forall rt,
  walk 5 (fun c => getPaginatedShopOrders rt db_ABC (req 2 c None)) None
    = Some [order_B; order_A]
  /\ matching db_ABC (req 2 None None) = [order_A; order_B; order_C]
  /\ walk 5 (fun c => getPaginatedShopOrders rt db_ABC (req 1 c (Some [65]))) None
    = Some [order_A; order_B; order_C]
  /\ matching db_ABC (req 1 None (Some [65])) = [order_A; order_C].
Proof.
  intros rt. repeat split; vm_compute; reflexivity.
Qed.

(** ** C2 *)

(** C2 (refuted at a concrete store): Strategy A returns B right before A
    although both were created at 10:00 and B's id "2" is below A's id "3":
    its ordering names no [id] tie-break, and the store breaks the tie by
    ascending id. *)
Theorem C2_strategyA_tie_ascending : forall rt,
  getPaginatedShopOrders rt db_ABC (req 2 None None)
    = Ok {| page_orders := [order_B; order_A]; nextCursor := Some [57] |}
  /\ Order.created_at order_B = Order.created_at order_A
  /\ str_ltb (Order.id order_B) (Order.id order_A) = true.
Proof.
  intros rt. repeat split; vm_compute; reflexivity.
Qed.

(** ** C3 *)

(** C3 (refuted at a concrete store): without a search term the first
    page of the shop of A, B, C with page size 2 holds B and A, and its
    [nextCursor] is the bare id "9" of C, the row fetched beyond the page.
    It is no cursor token (its decoding fails) and encodes the
    [(created_at, id)] of no returned row. *)
Lemma C3_next_cursor_is_bare_id :
  getPaginatedShopOrders rt0 db_ABC (req 2 None None)
    = Ok {| page_orders := [order_B; order_A]; nextCursor := Some [57] |}
  /\ Cursor.decode rt0 [57] = None
  /\ forall r, In r [order_B; order_A] ->
       Some [57] <> Some (Cursor.encode (Order.created_at r) (Order.id r)).
Proof.
  split; [vm_compute; reflexivity|]. split; [vm_compute; reflexivity|].
  intros r [<- | [<- | []]]; vm_compute; discriminate.
Qed.

(** ** C4 *)

(** C4 (refuted at a concrete store): without a search term the cursor is
    not decoded; Strategy A hands it to the store as an order id. Without a
    cursor the page is B and A. The undecodable string "abc", which names
    no order, gives an empty page with no [nextCursor], which ends the
    listing; the undecodable string "3", the id of A, starts the listing
    after A. *)
Lemma C4_undecodable_cursor_not_first_page :
  getPaginatedShopOrders rt0 db_ABC (req 2 None None)
    = Ok {| page_orders := [order_B; order_A]; nextCursor := Some [57] |}
  /\ Cursor.decode rt0 [97; 98; 99] = None
  /\ getPaginatedShopOrders rt0 db_ABC (req 2 (Some [97; 98; 99]) None)
     = Ok {| page_orders := []; nextCursor := None |}
  /\ Cursor.decode rt0 [51] = None
  /\ getPaginatedShopOrders rt0 db_ABC (req 2 (Some [51]) None)
     = Ok {| page_orders := [order_C]; nextCursor := None |}.
Proof.
  repeat split; vm_compute; reflexivity.
Qed.

(** ** C5

    The cursor codec: [Base64], UTF-8, the JSON pair and the ISO date each
    read back what they wrote. *)

Lemma all_from_spec : forall n z P, all_from n z P = true ->
  forall x, z <= x < z + Z.of_nat n -> P x = true.
Proof.
  induction n as [|k IH]; intros z P H x Hx; [lia|].
  simpl in H. apply andb_true_iff in H as [H1 H2].
  destruct (Z.eq_dec x z) as [->|Hne]; [exact H1|].
  apply (IH (z + 1)); [exact H2|lia].
Qed.

Lemma all_below_spec : forall n P, all_below n P = true ->
  forall z, 0 <= z < n -> P z = true.
Proof.
  intros n P H z Hz. apply (all_from_spec (Z.to_nat n) 0 P H). lia.
Qed.

Lemma sextets_char_of : forall v r, 0 <= v < 64 ->
  Base64.sextets (Base64.char_of v :: r) = v :: Base64.sextets r.
Proof.
  intros v r Hv.
  pose proof (all_below_spec 64 sextet_check ltac:(vm_compute; reflexivity) v ltac:(lia)) as H.
  unfold sextet_check in H. apply andb_true_iff in H as [H1 H2].
  apply negb_true_iff in H1.
  cbn [Base64.sextets]. rewrite H1.
  destruct (Base64.value_of (Base64.char_of v mod 256)) as [w|]; [|discriminate].
  apply Z.eqb_eq in H2. subst w. reflexivity.
Qed.

Lemma sextets_pad : forall r, Base64.sextets (61 :: r) = [].
Proof. reflexivity. Qed.

Lemma b64_roundtrip_n : forall n bs, (length bs < n)%nat ->
  Forall (fun b => 0 <= b < 256) bs -> Base64.decode (Base64.encode bs) = bs.
Proof.
  induction n as [|n IH]; intros bs Hl Hb; [simpl in Hl; lia|].
  destruct bs as [|b1 [|b2 [|b3 r]]].
  - reflexivity.
  - inversion Hb as [|? ? Hb1 _]; subst.
    unfold Base64.decode. cbn [Base64.encode].
    rewrite !sextets_char_of by (Z.div_mod_to_equations; lia).
    rewrite sextets_pad. cbn [Base64.bytes_of]. f_equal. Z.div_mod_to_equations; lia.
  - inversion Hb as [|? ? Hb1 Hb']; inversion Hb' as [|? ? Hb2 _]; subst.
    unfold Base64.decode. cbn [Base64.encode].
    rewrite !sextets_char_of by (Z.div_mod_to_equations; lia).
    rewrite sextets_pad. cbn [Base64.bytes_of]. f_equal; [|f_equal]; Z.div_mod_to_equations; lia.
  - inversion Hb as [|? ? Hb1 Hb']; inversion Hb' as [|? ? Hb2 Hb''];
      inversion Hb'' as [|? ? Hb3 Hr]; subst.
    unfold Base64.decode. cbn [Base64.encode app].
    rewrite !sextets_char_of by (Z.div_mod_to_equations; lia).
    cbn [Base64.bytes_of].
    change (Base64.bytes_of (Base64.sextets (Base64.encode r))) with (Base64.decode (Base64.encode r)).
    rewrite IH by (simpl in Hl; lia || assumption).
    f_equal; [|f_equal; [|f_equal]]; Z.div_mod_to_equations; lia.
Qed.

Ltac zb := repeat match goal with
  | |- context [?a <? ?b] =>
      first [rewrite (proj2 (Z.ltb_lt a b)) by lia | rewrite (proj2 (Z.ltb_ge a b)) by lia]
  | |- context [?a <=? ?b] =>
      first [rewrite (proj2 (Z.leb_le a b)) by lia | rewrite (proj2 (Z.leb_gt a b)) by lia]
  | |- context [?a =? ?b] =>
      first [rewrite (proj2 (Z.eqb_eq a b)) by lia | rewrite (proj2 (Z.eqb_neq a b)) by lia]
  end; cbn [andb orb negb].

Ltac dec_step := intros; match goal with
  | |- Utf8.decode_cps (_ :: ?r0) = _ =>
      let r := fresh "r" in
      remember r0 as r eqn:Hr; cbn [Utf8.decode_cps]; subst r; cbv beta iota zeta
  end; unfold Utf8.cont.

Lemma decode_cps_1 : forall b0 r, 0 <= b0 < 128 ->
  Utf8.decode_cps (b0 :: r) = b0 :: Utf8.decode_cps r.
Proof. dec_step. zb. reflexivity. Qed.

Lemma decode_cps_2 : forall b0 b1 r, 194 <= b0 <= 223 -> 128 <= b1 <= 191 ->
  Utf8.decode_cps (b0 :: b1 :: r) = ((b0 - 192) * 64 + (b1 - 128)) :: Utf8.decode_cps r.
Proof. dec_step. zb. reflexivity. Qed.

Lemma decode_cps_3 : forall b0 b1 b2 r,
  224 <= b0 <= 239 -> (if b0 =? 224 then 160 else 128) <= b1 <= (if b0 =? 237 then 159 else 191) ->
  128 <= b2 <= 191 ->
  Utf8.decode_cps (b0 :: b1 :: b2 :: r) =
    ((b0 - 224) * 4096 + (b1 - 128) * 64 + (b2 - 128)) :: Utf8.decode_cps r.
Proof. dec_step. destruct (b0 =? 224), (b0 =? 237); try lia; zb; reflexivity. Qed.

Lemma decode_cps_4 : forall b0 b1 b2 b3 r,
  240 <= b0 <= 244 -> (if b0 =? 240 then 144 else 128) <= b1 <= (if b0 =? 244 then 143 else 191) ->
  128 <= b2 <= 191 -> 128 <= b3 <= 191 ->
  Utf8.decode_cps (b0 :: b1 :: b2 :: b3 :: r) =
    ((b0 - 240) * 262144 + (b1 - 128) * 4096 + (b2 - 128) * 64 + (b3 - 128))
    :: Utf8.decode_cps r.
Proof. dec_step. destruct (b0 =? 240), (b0 =? 244); try lia; zb; reflexivity. Qed.

Lemma decode_cps_bytes_of_cp : forall cp rest, scalar cp ->
  Utf8.decode_cps (Utf8.bytes_of_cp cp ++ rest) = cp :: Utf8.decode_cps rest.
Proof.
  intros cp rest [Hr Hs]. unfold Utf8.bytes_of_cp.
  destruct (Z_lt_le_dec cp 128).
  { zb. apply decode_cps_1; lia. }
  destruct (Z_lt_le_dec cp 2048).
  { zb. cbn [app]. pose proof (Z.div_mod cp 64 ltac:(lia)). pose proof (Z.mod_pos_bound cp 64 ltac:(lia)).
    rewrite decode_cps_2 by lia. f_equal; lia. }
  destruct (Z_lt_le_dec cp 65536).
  { zb. cbn [app].
    assert (E : cp / 4096 = cp / 64 / 64) by (rewrite Z.div_div by lia; reflexivity).
    rewrite E.
    pose proof (Z.div_mod cp 64 ltac:(lia)). pose proof (Z.mod_pos_bound cp 64 ltac:(lia)).
    set (q := cp / 64) in *. set (c := cp mod 64) in *.
    pose proof (Z.div_mod q 64 ltac:(lia)). pose proof (Z.mod_pos_bound q 64 ltac:(lia)).
    set (a := q / 64) in *. set (b := q mod 64) in *. clearbody q c a b.
    rewrite decode_cps_3; [f_equal; lia | lia | | lia].
    destruct (Z.eqb_spec (224 + a) 224), (Z.eqb_spec (224 + a) 237); lia. }
  zb. cbn [app].
  assert (E1 : cp / 4096 = cp / 64 / 64) by (rewrite Z.div_div by lia; reflexivity).
  assert (E2 : cp / 262144 = cp / 64 / 64 / 64) by (rewrite !Z.div_div by lia; reflexivity).
  rewrite E1, E2.
  pose proof (Z.div_mod cp 64 ltac:(lia)). pose proof (Z.mod_pos_bound cp 64 ltac:(lia)).
  set (q := cp / 64) in *. set (d := cp mod 64) in *.
  pose proof (Z.div_mod q 64 ltac:(lia)). pose proof (Z.mod_pos_bound q 64 ltac:(lia)).
  set (q2 := q / 64) in *. set (c := q mod 64) in *.
  pose proof (Z.div_mod q2 64 ltac:(lia)). pose proof (Z.mod_pos_bound q2 64 ltac:(lia)).
  set (a := q2 / 64) in *. set (b := q2 mod 64) in *. clearbody q d q2 c a b.
  rewrite decode_cps_4; [f_equal; lia | lia | | lia | lia].
  destruct (Z.eqb_spec (240 + a) 240), (Z.eqb_spec (240 + a) 244); lia.
Qed.

Lemma decode_cps_encode : forall cps, Forall scalar cps ->
  Utf8.decode_cps (flat_map Utf8.bytes_of_cp cps) = cps.
Proof.
  induction cps as [|cp r IH]; intros H; [reflexivity|].
  inversion H; subst. cbn [flat_map].
  rewrite decode_cps_bytes_of_cp by assumption. f_equal. auto.
Qed.

Lemma code_points_scalar_n : forall n s, (length s < n)%nat ->
  Forall (fun u => 0 <= u < 65536) s -> Forall scalar (Utf8.code_points s).
Proof.
  induction n as [|n IH]; intros s Hl Hs; [simpl in Hl; lia|].
  destruct s as [|u r]; [constructor|].
  inversion Hs as [|? ? Hu Hr]; subst. simpl in Hl.
  cbn [Utf8.code_points]. unfold Utf8.is_high, Utf8.is_low.
  destruct ((55296 <=? u) && (u <=? 56319)) eqn:Eh.
  - apply andb_true_iff in Eh as [Eh1 Eh2]. apply Z.leb_le in Eh1, Eh2.
    destruct r as [|u2 r2].
    + constructor; [unfold scalar; lia|constructor].
    + inversion Hr as [|? ? Hu2 Hr2]; subst.
      destruct ((56320 <=? u2) && (u2 <=? 57343)) eqn:El.
      * apply andb_true_iff in El as [El1 El2]. apply Z.leb_le in El1, El2.
        constructor; [unfold scalar; lia|]. apply IH; [simpl in *; lia|assumption].
      * constructor; [unfold scalar; lia|]. apply IH; [simpl in *; lia|assumption].
  - destruct ((56320 <=? u) && (u <=? 57343)) eqn:El.
    + constructor; [unfold scalar; lia|]. apply IH; [lia|assumption].
    + constructor; [|apply IH; [lia|assumption]].
      apply andb_false_iff in Eh, El. unfold scalar.
      destruct Eh as [Eh|Eh]; apply Z.leb_gt in Eh;
        destruct El as [El|El]; apply Z.leb_gt in El; lia.
Qed.

Lemma wf16_units : forall s, wf16 s -> Forall (fun u => 0 <= u < 65536) s.
Proof. induction 1; repeat constructor; auto; lia. Qed.

Lemma wf16_app : forall a b, wf16 a -> wf16 b -> wf16 (a ++ b).
Proof. intros a b Ha Hb. induction Ha; cbn [app]; [exact Hb|apply wf16_bmp; auto|apply wf16_pair; auto]. Qed.

Lemma wf16_ascii : forall s, Forall (fun u => 0 <= u < 55296) s -> wf16 s.
Proof.
  induction s as [|u r IH]; intros H; [constructor|].
  inversion H; subst. constructor; [lia| | |auto];
    unfold Utf8.is_high, Utf8.is_low; zb; reflexivity.
Qed.

Lemma units_code_points : forall s, wf16 s ->
  flat_map Utf8.units_of_cp (Utf8.code_points s) = s.
Proof.
  induction 1 as [|u s Hu Hh Hl _ IH|h l s Hh0 Hl0 Hh Hl _ IH].
  - reflexivity.
  - cbn [Utf8.code_points]. rewrite Hh, Hl. cbn [flat_map]. rewrite IH.
    unfold Utf8.units_of_cp. zb. reflexivity.
  - cbn [Utf8.code_points]. rewrite Hh, Hl. cbn [flat_map]. rewrite IH.
    unfold Utf8.is_high, Utf8.is_low in *.
    apply andb_true_iff in Hh as [Hh1 Hh2], Hl as [Hl1 Hl2].
    apply Z.leb_le in Hh1, Hh2, Hl1, Hl2.
    unfold Utf8.units_of_cp. zb.
    replace (65536 + (h - 55296) * 1024 + (l - 56320) - 65536)
      with ((l - 56320) + (h - 55296) * 1024) by lia.
    rewrite Z.div_add, Z.mod_add, Z.div_small, Z.mod_small by lia.
    cbn [app]. f_equal; [lia|f_equal; lia].
Qed.

Lemma utf8_roundtrip : forall s, wf16 s -> Utf8.decode (Utf8.encode s) = s.
Proof.
  intros s H. unfold Utf8.decode, Utf8.encode.
  rewrite decode_cps_encode.
  - apply units_code_points; assumption.
  - apply (code_points_scalar_n (S (length s))); [lia|]. apply wf16_units; assumption.
Qed.

Lemma hex4_unicode : forall u, 0 <= u < 65536 ->
  Json.hex4 (Json.hex_digit (u / 4096)) (Json.hex_digit ((u / 256) mod 16))
            (Json.hex_digit ((u / 16) mod 16)) (Json.hex_digit (u mod 16)) = Some u.
Proof.
  intros u Hu.
  pose proof (all_below_spec 65536 hex4_check ltac:(vm_compute; reflexivity) u ltac:(lia)) as H.
  unfold hex4_check in H.
  destruct (Json.hex4 _ _ _ _); [|discriminate].
  apply Z.eqb_eq in H. subst. reflexivity.
Qed.

Lemma pstr_u_escape : forall h1 h2 h3 h4 X,
  Json.pstr (92 :: 117 :: h1 :: h2 :: h3 :: h4 :: X)
  = match Json.hex4 h1 h2 h3 h4 with
    | Some v => Json.cons_fst v (Json.pstr X)
    | None => None
    end.
Proof. reflexivity. Qed.

Lemma pstr_unicode : forall u X, 0 <= u < 65536 ->
  Json.pstr (Json.unicode_escape u ++ X) = Json.cons_fst u (Json.pstr X).
Proof.
  intros u X Hu. unfold Json.unicode_escape. cbn [app].
  rewrite pstr_u_escape, hex4_unicode by assumption. reflexivity.
Qed.

Lemma pstr_unit : forall u X, 32 <= u -> u <> 34 -> u <> 92 ->
  Json.pstr (u :: X) = Json.cons_fst u (Json.pstr X).
Proof. intros u X H1 H2 H3. cbn [Json.pstr]. zb. reflexivity. Qed.

Lemma pstr_escape_unit : forall u X, 0 <= u < 65536 -> Utf8.is_high u = false ->
  Json.pstr (Json.escape_unit u ++ X) = Json.cons_fst u (Json.pstr X).
Proof.
  intros u X Hu Hh. unfold Json.escape_unit.
  destruct (Z.eqb_spec u 8); [subst; reflexivity|].
  destruct (Z.eqb_spec u 9); [subst; reflexivity|].
  destruct (Z.eqb_spec u 10); [subst; reflexivity|].
  destruct (Z.eqb_spec u 12); [subst; reflexivity|].
  destruct (Z.eqb_spec u 13); [subst; reflexivity|].
  destruct (Z.eqb_spec u 34); [subst; reflexivity|].
  destruct (Z.eqb_spec u 92); [subst; reflexivity|].
  destruct (Z.ltb_spec u 32); [apply pstr_unicode; assumption|].
  destruct (Utf8.is_high u || Utf8.is_low u); [apply pstr_unicode; assumption|].
  cbn [app]. apply pstr_unit; assumption.
Qed.

Lemma pstr_quote_n : forall n s rest, (length s < n)%nat -> units s ->
  Json.pstr (Json.quote_units s ++ 34 :: rest) = Some (s, rest).
Proof.
  induction n as [|n IH]; intros s rest Hl Hs; [simpl in Hl; lia|].
  destruct s as [|u r]; [reflexivity|].
  inversion Hs as [|? ? Hu Hr]; subst. simpl in Hl.
  cbn [Json.quote_units].
  destruct (Utf8.is_high u) eqn:Eh.
  - assert (Hh : 55296 <= u <= 56319).
    { unfold Utf8.is_high in Eh. apply andb_true_iff in Eh as [E1 E2].
      apply Z.leb_le in E1, E2. lia. }
    destruct r as [|u2 r2].
    + rewrite pstr_unicode by assumption. reflexivity.
    + inversion Hr as [|? ? Hu2 Hr2]; subst.
      destruct (Utf8.is_low u2) eqn:El.
      * assert (Hl2 : 56320 <= u2 <= 57343).
        { unfold Utf8.is_low in El. apply andb_true_iff in El as [E1 E2].
          apply Z.leb_le in E1, E2. lia. }
        cbn [app]. rewrite pstr_unit by lia. rewrite pstr_unit by lia.
        rewrite IH by (simpl in *; lia || assumption). reflexivity.
      * rewrite <- app_assoc. rewrite pstr_unicode by assumption.
        rewrite IH by (simpl in *; lia || assumption). reflexivity.
  - rewrite <- app_assoc. rewrite pstr_escape_unit by assumption.
    rewrite IH by (simpl in *; lia || assumption). reflexivity.
Qed.

Lemma pstr_quote : forall s rest, units s ->
  Json.pstr (Json.quote_units s ++ 34 :: rest) = Some (s, rest).
Proof. intros s rest Hs. apply (pstr_quote_n (S (length s))); [lia|assumption]. Qed.

Lemma hex_digit_ascii : forall d, 0 <= d < 16 -> 0 <= Json.hex_digit d < 55296.
Proof. intros d Hd. unfold Json.hex_digit. destruct (Z.ltb_spec d 10); lia. Qed.

Lemma unicode_escape_wf : forall u, 0 <= u < 65536 -> wf16 (Json.unicode_escape u).
Proof.
  intros u Hu. apply wf16_ascii. unfold Json.unicode_escape.
  repeat constructor; try lia; apply hex_digit_ascii; Z.div_mod_to_equations; lia.
Qed.

Lemma escape_unit_wf : forall u, 0 <= u < 65536 -> Utf8.is_high u = false ->
  wf16 (Json.escape_unit u).
Proof.
  intros u Hu Hh. unfold Json.escape_unit.
  repeat match goal with
  | |- wf16 (if ?c then _ else _) => destruct c eqn:?
  end;
  try (apply wf16_ascii; repeat constructor; lia);
  try (apply unicode_escape_wf; assumption).
  match goal with H : (_ || _) = false |- _ => apply orb_false_iff in H as [E1 E2] end.
  apply wf16_bmp; [assumption|assumption|assumption|constructor].
Qed.

Lemma quote_units_wf_n : forall n s, (length s < n)%nat -> units s -> wf16 (Json.quote_units s).
Proof.
  induction n as [|n IH]; intros s Hl Hs; [simpl in Hl; lia|].
  destruct s as [|u r]; [constructor|].
  inversion Hs as [|? ? Hu Hr]; subst. simpl in Hl.
  cbn [Json.quote_units].
  destruct (Utf8.is_high u) eqn:Eh.
  - destruct r as [|u2 r2].
    + apply unicode_escape_wf; assumption.
    + inversion Hr as [|? ? Hu2 Hr2]; subst.
      destruct (Utf8.is_low u2) eqn:El.
      * apply wf16_pair; auto. apply IH; [simpl in *; lia|assumption].
      * apply wf16_app; [apply unicode_escape_wf; assumption|].
        apply IH; [simpl in *; lia|assumption].
  - apply wf16_app; [apply escape_unit_wf; assumption|].
    apply IH; [simpl in *; lia|assumption].
Qed.

Lemma quote_units_wf : forall s, units s -> wf16 (Json.quote_units s).
Proof. intros s Hs. apply (quote_units_wf_n (S (length s))); [lia|assumption]. Qed.

Lemma stringify_pair_wf : forall a b, units a -> units b -> wf16 (Json.stringify_pair a b).
Proof.
  intros a b Ha Hb. unfold Json.stringify_pair, Json.quote.
  assert (Hc : forall c, 0 <= c < 55296 -> wf16 [c])
    by (intros c Hc; apply wf16_ascii; repeat constructor; lia).
  repeat apply wf16_app; try (apply Hc; lia);
    apply quote_units_wf; assumption.
Qed.

Lemma pvalue_str : forall f X,
  Json.pvalue (S f) (34 :: X)
  = match Json.pstr X with Some (x, r') => Some (Json.JStr x, r') | None => None end.
Proof. reflexivity. Qed.

Lemma pvalue_arr : forall f X,
  Json.pvalue (S f) (91 :: 34 :: X) = Json.parr f (34 :: X) [].
Proof. reflexivity. Qed.

Lemma parr_step : forall f s acc,
  Json.parr (S f) s acc
  = match Json.pvalue f s with
    | None => None
    | Some (v, r) =>
        match Json.skip_ws r with
        | c :: r' =>
            if c =? 44 then Json.parr f r' (acc ++ [v])
            else if c =? 93 then Some (Json.JArr (acc ++ [v]), r')
            else None
        | [] => None
        end
    end.
Proof. reflexivity. Qed.

Lemma parse_pair : forall a b, units a -> units b ->
  Json.parse (Json.stringify_pair a b) = Some (Json.JArr [Json.JStr a; Json.JStr b]).
Proof.
  intros a b Ha Hb. unfold Json.parse.
  assert (E : Json.stringify_pair a b
              = 91 :: 34 :: (Json.quote_units a ++ 34 :: 44 :: 34 ::
                               (Json.quote_units b ++ 34 :: [93]))).
  { unfold Json.stringify_pair, Json.quote. rewrite <- !app_assoc. reflexivity. }
  rewrite E.
  set (L := length _). assert (HL : (3 <= L)%nat) by (unfold L; cbn [length]; rewrite length_app; cbn [length]; lia).
  destruct L as [|[|[|n]]]; [lia|lia|lia|].
  rewrite pvalue_arr, parr_step, pvalue_str, pstr_quote by assumption.
  cbn -[Json.parr Json.pvalue Json.pstr Json.quote_units].
  rewrite parr_step, pvalue_str, pstr_quote by assumption.
  reflexivity.
Qed.

Lemma pad_digits : forall n v, 0 <= v ->
  Forall (fun c => 48 <= c <= 57) (IsoDate.pad n v).
Proof.
  induction n as [|k IH]; intros v Hv; cbn [IsoDate.pad]; [constructor|].
  apply Forall_app. split.
  - apply IH. apply Z.div_pos; lia.
  - constructor; [|constructor]. pose proof (Z.mod_pos_bound v 10). lia.
Qed.

Lemma pad_length : forall n v, length (IsoDate.pad n v) = n.
Proof.
  induction n as [|k IH]; intros v; cbn [IsoDate.pad]; [reflexivity|].
  rewrite length_app, IH. simpl. lia.
Qed.

Lemma read_digits_plus : forall a b s acc,
  IsoDate.read_digits (a + b) s acc
  = match IsoDate.read_digits a s acc with
    | Some (acc', s') => IsoDate.read_digits b s' acc'
    | None => None
    end.
Proof.
  induction a as [|a IH]; intros b s acc; [reflexivity|].
  cbn [Nat.add IsoDate.read_digits]. destruct s as [|u r]; [reflexivity|].
  destruct ((48 <=? u) && (u <=? 57)); [apply IH|reflexivity].
Qed.

Lemma read_pad : forall n v rest acc, 0 <= v < 10 ^ Z.of_nat n ->
  IsoDate.read_digits n (IsoDate.pad n v ++ rest) acc
  = Some (acc * 10 ^ Z.of_nat n + v, rest).
Proof.
  induction n as [|k IH]; intros v rest acc Hv.
  - cbn in Hv |- *. f_equal. f_equal. lia.
  - rewrite Nat2Z.inj_succ, Z.pow_succ_r in * by lia.
    cbn [IsoDate.pad]. rewrite <- app_assoc, <- Nat.add_1_r, read_digits_plus.
    rewrite IH by (split; [apply Z.div_pos; lia | apply Z.div_lt_upper_bound; lia]).
    cbn [app IsoDate.read_digits].
    pose proof (Z.mod_pos_bound v 10 ltac:(lia)).
    zb. f_equal. f_equal. pose proof (Z.div_mod v 10 ltac:(lia)). nia.
Qed.

Lemma read_year_text : forall y rest, Z.abs y <= 999999 ->
  IsoDate.read_year (IsoDate.year_text y ++ rest) = Some (y, rest).
Proof.
  intros y rest Hy. unfold IsoDate.year_text.
  destruct ((0 <=? y) && (y <=? 9999)) eqn:E.
  - apply andb_true_iff in E as [E1 E2]. apply Z.leb_le in E1, E2.
    pose proof (pad_digits 4 y E1) as Hd. pose proof (pad_length 4 y) as Hl.
    destruct (IsoDate.pad 4 y) as [|c l] eqn:Ep; [discriminate|].
    inversion Hd; subst.
    unfold IsoDate.read_year. cbn [app]. zb.
    change (c :: l ++ rest) with ((c :: l) ++ rest). rewrite <- Ep.
    rewrite read_pad by (cbn; lia). reflexivity.
  - apply andb_false_iff in E.
    destruct (Z.ltb_spec y 0).
    + unfold IsoDate.read_year. cbn [app]. zb.
      rewrite read_pad by (cbn; lia). cbn [Z.mul Z.add]. zb. f_equal. f_equal. lia.
    + unfold IsoDate.read_year. cbn [app]. zb.
      rewrite read_pad by (cbn; lia). f_equal. f_equal. destruct E as [E|E]; apply Z.leb_gt in E; lia.
Qed.

Lemma civil_from_days_doe : forall z,
  IsoDate.civil_from_days z
  = let era := (z + 719468) / 146097 in
    let '(yoe, m, d) := civil_doe (z + 719468 - era * 146097) in
    (if m <=? 2 then yoe + era * 400 + 1 else yoe + era * 400, m, d).
Proof. reflexivity. Qed.

Lemma is_leap_400 : forall x k, IsoDate.is_leap (x + k * 400) = IsoDate.is_leap x.
Proof.
  intros x k. unfold IsoDate.is_leap.
  replace (x + k * 400) with (x + (k * 100) * 4) at 1 by ring. rewrite Z.mod_add by lia.
  replace (x + k * 400) with (x + (k * 4) * 100) at 1 by ring. rewrite Z.mod_add by lia.
  rewrite Z.mod_add by lia. reflexivity.
Qed.

Lemma days_in_month_400 : forall x k m,
  IsoDate.days_in_month (x + k * 400) m = IsoDate.days_in_month x m.
Proof. intros x k m. unfold IsoDate.days_in_month. rewrite is_leap_400. reflexivity. Qed.

Lemma days_from_civil_era : forall yoe era m d, 0 <= yoe <= 399 ->
  IsoDate.days_from_civil (if m <=? 2 then yoe + era * 400 + 1 else yoe + era * 400) m d
  = era * 146097 + doe_of yoe m d - 719468.
Proof.
  intros yoe era m d Hy. unfold IsoDate.days_from_civil, doe_of. cbv beta zeta.
  assert (E : (yoe + era * 400) / 400 = era).
  { rewrite Z.div_add, Z.div_small by lia. lia. }
  destruct (m <=? 2).
  - replace (yoe + era * 400 + 1 - 1) with (yoe + era * 400) by lia.
    rewrite E. replace (yoe + era * 400 - era * 400) with yoe by lia. lia.
  - rewrite E. replace (yoe + era * 400 - era * 400) with yoe by lia. lia.
Qed.

Lemma civil_ok : forall z,
  let '(y, m, d) := IsoDate.civil_from_days z in
  1 <= m <= 12 /\ 1 <= d <= IsoDate.days_in_month y m
  /\ IsoDate.days_from_civil y m d = z
  /\ (z + 719468) / 146097 * 400 <= y <= (z + 719468) / 146097 * 400 + 400.
Proof.
  intros z. rewrite civil_from_days_doe. cbv beta zeta.
  set (era := (z + 719468) / 146097).
  set (doe := z + 719468 - era * 146097).
  assert (Hdoe : 0 <= doe < 146097) by (unfold doe, era; Z.div_mod_to_equations; lia).
  pose proof (all_below_spec 146097 civil_check ltac:(vm_compute; reflexivity) doe Hdoe) as Hc.
  unfold civil_check in Hc. destruct (civil_doe doe) as [[yoe m] d].
  repeat rewrite andb_true_iff in Hc.
  destruct Hc as [[[[[[H1 H2] H3] H4] H5] H6] H7].
  apply Z.leb_le in H1, H2, H3, H4, H5, H6. apply Z.eqb_eq in H7.
  rewrite days_from_civil_era by lia.
  revert H6. destruct (m <=? 2); intros H6.
  - replace (yoe + era * 400 + 1) with ((yoe + 1) + era * 400) by ring.
    rewrite days_in_month_400. repeat split; lia.
  - rewrite days_in_month_400. repeat split; lia.
Qed.

Lemma time_fields : forall ms, 0 <= ms < 86400000 ->
  ms / 3600000 <= 23
  /\ ms / 3600000 * 3600000 + (ms / 60000) mod 60 * 60000 + (ms / 1000) mod 60 * 1000
     + ms mod 1000 = ms.
Proof.
  intros ms Hms.
  assert (E1 : ms / 3600000 = ms / 1000 / 60 / 60) by (rewrite !Z.div_div by lia; reflexivity).
  assert (E2 : ms / 60000 = ms / 1000 / 60) by (rewrite !Z.div_div by lia; reflexivity).
  rewrite E1, E2.
  pose proof (Z.div_mod ms 1000 ltac:(lia)). pose proof (Z.mod_pos_bound ms 1000 ltac:(lia)).
  set (s := ms / 1000) in *. set (r := ms mod 1000) in *.
  pose proof (Z.div_mod s 60 ltac:(lia)). pose proof (Z.mod_pos_bound s 60 ltac:(lia)).
  set (mi := s / 60) in *. set (sc := s mod 60) in *.
  pose proof (Z.div_mod mi 60 ltac:(lia)). pose proof (Z.mod_pos_bound mi 60 ltac:(lia)).
  set (h := mi / 60) in *. set (mm := mi mod 60) in *.
  lia.
Qed.

Lemma days_in_month_le : forall y m, IsoDate.days_in_month y m <= 31.
Proof.
  intros y m. unfold IsoDate.days_in_month.
  destruct (m =? 2); [destruct (IsoDate.is_leap y)|destruct (_ || _)]; lia.
Qed.

Lemma expect_cons : forall c X, IsoDate.expect c (c :: X) = Some X.
Proof. intros c X. unfold IsoDate.expect. rewrite Z.eqb_refl. reflexivity. Qed.

Lemma iso_roundtrip : forall t, Z.abs t <= IsoDate.max_time ->
  IsoDate.iso_parse (IsoDate.to_iso_string t) = Some (Some t).
Proof.
  intros t Ht. unfold IsoDate.max_time in Ht.
  unfold IsoDate.to_iso_string, IsoDate.ms_per_day.
  set (day := t / 86400000). set (ms := t mod 86400000).
  assert (Hms : 0 <= ms < 86400000) by (apply Z.mod_pos_bound; lia).
  assert (Ht' : t = day * 86400000 + ms) by (unfold day, ms; pose proof (Z.div_mod t 86400000); lia).
  pose proof (civil_ok day) as Hc.
  destruct (IsoDate.civil_from_days day) as [[y m] d].
  destruct Hc as [Hm [Hd [Hdays Hy]]].
  assert (Hy' : Z.abs y <= 999999).
  { unfold day in Hy. Z.div_mod_to_equations. lia. }
  destruct (time_fields ms Hms) as [Hh Hsum].
  pose proof (days_in_month_le y m).
  unfold IsoDate.iso_parse.
  rewrite read_year_text by assumption. cbn [IsoDate.obind app]. rewrite expect_cons.
  cbn [IsoDate.obind]. rewrite read_pad by (cbn; lia). cbn [IsoDate.obind app].
  rewrite expect_cons. cbn [IsoDate.obind].
  rewrite read_pad by (cbn; lia). cbn [IsoDate.obind app].
  rewrite expect_cons. cbn [IsoDate.obind].
  rewrite read_pad by (cbn; Z.div_mod_to_equations; lia). cbn [IsoDate.obind app].
  rewrite expect_cons. cbn [IsoDate.obind].
  rewrite read_pad by (cbn; pose proof (Z.mod_pos_bound (ms / 60000) 60); lia).
  cbn [IsoDate.obind app].
  rewrite expect_cons. cbn [IsoDate.obind].
  rewrite read_pad by (cbn; pose proof (Z.mod_pos_bound (ms / 1000) 60); lia).
  cbn [IsoDate.obind app].
  rewrite expect_cons. cbn [IsoDate.obind].
  rewrite read_pad by (cbn; pose proof (Z.mod_pos_bound ms 1000); lia).
  cbn [IsoDate.obind app].
  rewrite expect_cons. cbn [IsoDate.obind].
  rewrite !Z.mul_0_l, !Z.add_0_l. rewrite Hdays.
  unfold IsoDate.ms_per_day, IsoDate.max_time.
  pose proof (Z.mod_pos_bound (ms / 60000) 60 ltac:(lia)).
  pose proof (Z.mod_pos_bound (ms / 1000) 60 ltac:(lia)).
  pose proof (Z.div_pos ms 3600000 ltac:(lia) ltac:(lia)).
  zb. f_equal. f_equal. lia.
Qed.

Lemma pad_ascii : forall n v, Forall (fun c => 48 <= c <= 57) (IsoDate.pad n v).
Proof.
  induction n as [|k IH]; intros v; cbn [IsoDate.pad]; [constructor|].
  apply Forall_app. split; [apply IH|].
  constructor; [|constructor]. pose proof (Z.mod_pos_bound v 10). lia.
Qed.

Lemma bytes_of_cp_bytes : forall cp, scalar cp ->
  Forall (fun b => 0 <= b < 256) (Utf8.bytes_of_cp cp).
Proof.
  intros cp [Hr _]. unfold Utf8.bytes_of_cp.
  destruct (Z.ltb_spec cp 128); [repeat constructor; lia|].
  destruct (Z.ltb_spec cp 2048); [repeat constructor; Z.div_mod_to_equations; lia|].
  destruct (Z.ltb_spec cp 65536);
    repeat constructor; try (pose proof (Z.mod_pos_bound (cp / 64) 64); lia);
    try (pose proof (Z.mod_pos_bound (cp / 4096) 64); lia);
    try (pose proof (Z.mod_pos_bound cp 64); lia);
    Z.div_mod_to_equations; lia.
Qed.

Lemma utf8_encode_bytes : forall s, units s ->
  Forall (fun b => 0 <= b < 256) (Utf8.encode s).
Proof.
  intros s Hs. unfold Utf8.encode.
  pose proof (code_points_scalar_n (S (length s)) s ltac:(lia) Hs) as H.
  induction (Utf8.code_points s) as [|cp r IH]; [constructor|].
  inversion H; subst. cbn [flat_map]. apply Forall_app. split.
  - apply bytes_of_cp_bytes; assumption.
  - apply IH; assumption.
Qed.

Lemma digits_units : forall l, Forall (fun c => 48 <= c <= 57) l -> units l.
Proof. intros l H. eapply Forall_impl; [|exact H]. cbv beta. intros; lia. Qed.

Lemma to_iso_string_units : forall t, units (IsoDate.to_iso_string t).
Proof.
  intros t. unfold units, IsoDate.to_iso_string.
  destruct (IsoDate.civil_from_days _) as [[y m] d].
  unfold IsoDate.year_text.
  repeat match goal with
  | |- context [IsoDate.pad ?n ?v] =>
      let l := fresh "l" in
      let H := fresh "H" in
      pose proof (pad_ascii n v) as H; set (l := IsoDate.pad n v) in *; clearbody l
  end.
  destruct (_ && _); [|destruct (_ <? _)];
  repeat (first [ apply Forall_app; split
                | apply Forall_nil
                | apply Forall_cons; [lia|]
                | apply digits_units; assumption ]).
Qed.

(** C5: for a valid date (time value [t] with [|t| <= 8.64e15], as every
    [created_at] read from the store is) and an id made of UTF-16 code
    units, reading the token [Cursor.encode t id] in the search path gives
    the date with time value [t] and the string [id]: [new Date(d[0])] is
    [t] and [d[1]] is [id]. *)
Theorem C5_cursor_roundtrip : forall rt t id,
  Z.abs t <= IsoDate.max_time -> Forall (fun u => 0 <= u < 65536) id ->
  Cursor.decode rt (Cursor.encode t id) = Some (Some t, VJson (Json.JStr id)).
Proof.
  intros rt t id Ht Hid. unfold Cursor.decode, Cursor.encode.
  pose proof (to_iso_string_units t) as Hiso.
  rewrite b64_roundtrip_n with (n := S (length (Utf8.encode
              (Json.stringify_pair (IsoDate.to_iso_string t) id)))) by
    (lia || (apply utf8_encode_bytes; apply wf16_units, stringify_pair_wf; assumption)).
  rewrite utf8_roundtrip by (apply stringify_pair_wf; assumption).
  rewrite parse_pair by assumption.
  cbn [Cursor.index nth_error]. unfold Cursor.new_date, Cursor.date_parse.
  rewrite iso_roundtrip by assumption. reflexivity.
Qed.

Lemma C5_cursor_roundtrip_witness :
  (Z.abs 1700000000123 <= IsoDate.max_time /\ Forall (fun u => 0 <= u < 65536) [51; 55357; 56832])
  /\ Cursor.decode rt0 (Cursor.encode 1700000000123 [51; 55357; 56832])
     = Some (Some 1700000000123, VJson (Json.JStr [51; 55357; 56832])).
Proof.
  split.
  - split; [unfold IsoDate.max_time; lia|].
    constructor; [lia|]. constructor; [lia|]. constructor; [lia|constructor].
  - apply (C5_cursor_roundtrip rt0 1700000000123 [51; 55357; 56832]).
    + unfold IsoDate.max_time; lia.
    + constructor; [lia|]. constructor; [lia|]. constructor; [lia|constructor].
Defined.

(** ** C6 *)

(** C6 (refuted at a concrete store): with search term "A" and the token
    of A's [(created_at, id)] as cursor, Strategy B returns B, whose
    display id, address and user e-mail do not contain "A": the cursor's
    [OR] key, spread after the [where] object, replaces the search
    term's [OR] key, so the text match is dropped. *)
Theorem C6_search_dropped_on_cursor : forall rt,
  Cursor.decode rt (Cursor.encode 36000000 [51])
    = Some (Some 36000000, VJson (Json.JStr [51]))
  /\ getPaginatedShopOrders rt db_ABC (req 10 (Some (Cursor.encode 36000000 [51])) (Some [65]))
     = Ok {| page_orders := [order_B; order_C]; nextCursor := None |}
  /\ matching db_ABC (req 10 None (Some [65])) = [order_A; order_C].
Proof.
  intros rt. split; [|split]; vm_compute; reflexivity.
Qed.

(** ** C7 *)

(** C7, counterexample: a search term that is present but empty is falsy,
    so the request goes to Strategy A and not to the search path. *)
Lemma C7_empty_search_term :
  getPaginatedShopOrders rt0 db_ABC (req 2 None (Some []))
    = getPaginatedShopOrdersFromDB db_ABC (req 2 None (Some []))
  /\ getPaginatedShopOrders rt0 db_ABC (req 2 None (Some []))
     <> searchShopOrders rt0 db_ABC (req 2 None (Some [])).
Proof.
  split; vm_compute; [reflexivity | discriminate].
Qed.

(** C7, as amended: the strategy is chosen by the truthiness of the
    search term alone (absent and empty are falsy): a truthy term selects
    the search path (Strategy B), a falsy one Strategy A on the same
    options. *)
Theorem C7_selection_by_truthiness : forall rt db o,
  getPaginatedShopOrders rt db o
    = if truthy (Opts.searchTerm o) then searchShopOrders rt db o
      else getPaginatedShopOrdersFromDB db o.
Proof.
  intros rt db [shop lim cur st ost dr].
  unfold getPaginatedShopOrders. cbn [Opts.searchTerm].
  destruct st as [[|u t]|]; cbn [truthy negb]; try reflexivity;
    unfold getPaginatedShopOrdersFromDB; cbn [Opts.limit Opts.shop_id Opts.cursor
      Opts.searchTerm Opts.orderStatus Opts.dateRange];
    destruct lim; reflexivity.
Qed.

(** ** C8 *)



(** ** C9 *)

(** C9: for an existing order, whatever its current status, [updateStatus]
    at time [now] succeeds with any status: the stored order and the
    returned one are the old order with the new status (and the given
    [assigned_to] and [actual_delivery_time] when they are not
    [undefined]), written at [now]. *)
Theorem C9_update_unconditional : forall db now order_id st a d o,
  find (fun o => str_eqb (Order.id o) order_id) (orders db) = Some o ->
  exists db', updateStatus db now order_id st a d = Ok (db', set_status st a d now o)
    /\ In (set_status st a d now o) (orders db')
    /\ Order.order_status (set_status st a d now o) = st.
Proof.
  intros db now order_id st a d o Hf.
  unfold updateStatus. rewrite Hf.
  eexists. split; [reflexivity|]. split; [|reflexivity].
  cbn [orders]. apply find_some in Hf as [Hin Heq].
  apply in_map_iff. exists o. split; [|exact Hin].
  rewrite Heq. reflexivity.
Qed.

Lemma C9_update_unconditional_witness :
  find (fun o => str_eqb (Order.id o) [51]) (orders db_completed)
    = Some (set_status COMPLETED None None 36000001 order_A)
  /\ exists db', updateStatus db_completed 36000002 [51] OUT_FOR_DELIVERY None None
                   = Ok (db', set_status OUT_FOR_DELIVERY None None 36000002
                                (set_status COMPLETED None None 36000001 order_A))
    /\ In (set_status OUT_FOR_DELIVERY None None 36000002
            (set_status COMPLETED None None 36000001 order_A)) (orders db')
    /\ Order.order_status (set_status OUT_FOR_DELIVERY None None 36000002
                             (set_status COMPLETED None None 36000001 order_A)) = OUT_FOR_DELIVERY.
Proof.
  split; [reflexivity|].
  apply (C9_update_unconditional db_completed 36000002 [51] OUT_FOR_DELIVERY None None
           (set_status COMPLETED None None 36000001 order_A)).
  reflexivity.
Defined.

(** ** C10 *)

(** C10: with a (truthy) search term, [limit: 0] and an order satisfying
    the [where] object the search path sends to the store, the call
    throws: the TypeError of reading [created_at] of [orders[-1]], or the
    store's validation error if that object is invalid. *)
Theorem C10_limit_zero_throws : forall rt db o,
  truthy (Opts.searchTerm o) = true ->
  Opts.limit o = Some 0%nat ->
  let W := WObj (obj_spread (base_where (Opts.shop_id o) (Opts.searchTerm o)
                              (Opts.orderStatus o) (Opts.dateRange o))
                            (cursor_condition rt (Opts.cursor o))) in
  (exists r, In r (orders db) /\ w_holds db W r = true) ->
  getPaginatedShopOrders rt db o
    = Throw (if w_valid W then TypeError else PrismaValidationError).
Proof.
  intros rt db o Hs Hl W [r [Hr Hw]].
  unfold getPaginatedShopOrders. rewrite Hs. cbn [negb].
  unfold searchShopOrders. rewrite Hl. fold W.
  unfold find_many. cbn [where_ orderBy cursor skip take].
  destruct (w_valid W) eqn:Hv; cbn [negb]; [|reflexivity].
  set (rows := sort_by _ _).
  assert (Hlen : (1 <= length rows)%nat).
  { unfold rows. rewrite sort_by_length.
    assert (Hin : In r (filter (w_holds db W) (orders db))) by (apply filter_In; auto).
    destruct (filter (w_holds db W) (orders db)); [contradiction | cbn; lia]. }
  destruct rows as [|x rest]; [cbn in Hlen; lia|].
  reflexivity.
Qed.

Lemma C10_limit_zero_throws_witness :
  truthy (Opts.searchTerm (req 0 None (Some [65]))) = true
  /\ Opts.limit (req 0 None (Some [65])) = Some 0%nat
  /\ getPaginatedShopOrders rt0 db_ABC (req 0 None (Some [65])) = Throw TypeError.
Proof.
  split; [reflexivity|]. split; [reflexivity|].
  apply (C10_limit_zero_throws rt0 db_ABC (req 0 None (Some [65]))); [reflexivity | reflexivity |].
  exists order_A. split; [left; reflexivity | vm_compute; reflexivity].
Defined.

(** * Further properties of [OrderRepository] and [ShopServices] *)

(** ** Facts about text comparison and lookups *)

Lemma str_eqb_eq : forall a b, str_eqb a b = true <-> a = b.
Proof.
  induction a as [|x a IH]; intros [|y b]; simpl; split; intro H;
    try discriminate; try reflexivity.
  - apply andb_true_iff in H as [H1 H2]. apply Z.eqb_eq in H1. apply IH in H2. congruence.
  - injection H as -> ->. apply andb_true_iff. split; [apply Z.eqb_refl | apply IH; reflexivity].
Qed.

Lemma str_eqb_refl : forall a, str_eqb a a = true.
Proof. intros a. apply str_eqb_eq. reflexivity. Qed.

Lemma str_eqb_neq : forall a b, str_eqb a b = false <-> a <> b.
Proof.
  intros a b. rewrite <- not_true_iff_false. split; intros H E; apply H.
  - subst. apply str_eqb_refl.
  - apply str_eqb_eq. assumption.
Qed.

Lemma str_eqb_sym : forall a b, str_eqb a b = str_eqb b a.
Proof.
  intros a b. destruct (str_eqb a b) eqn:E, (str_eqb b a) eqn:F; try reflexivity.
  - apply str_eqb_eq in E. subst. rewrite str_eqb_refl in F. discriminate.
  - apply str_eqb_eq in F. subst. rewrite str_eqb_refl in E. discriminate.
Qed.

Lemma in_ids_spec : forall ids o, in_ids ids o = true <-> In (Order.id o) ids.
Proof.
  intros ids o. unfold in_ids. rewrite existsb_exists. split.
  - intros [x [Hx E]]. apply str_eqb_eq in E. subst. assumption.
  - intros H. exists (Order.id o). split; [assumption | apply str_eqb_refl].
Qed.

(** [find] over a list whose rows matching [p] are rewritten by [g]. *)
Lemma find_map_upd : forall {A} (p : A -> bool) g l,
  (forall x, p (g x) = p x) ->
  find p (map (fun x => if p x then g x else x) l) = option_map g (find p l).
Proof.
  intros A p g l Hg. induction l as [|x r IH]; [reflexivity|].
  simpl. destruct (p x) eqn:E; simpl.
  - rewrite Hg, E. reflexivity.
  - rewrite E. exact IH.
Qed.

Lemma find_map_frame : forall {A} (p q : A -> bool) g l,
  (forall x, q (g x) = q x) -> (forall x, q x = true -> p x = false) ->
  find q (map (fun x => if p x then g x else x) l) = find q l.
Proof.
  intros A p q g l Hg Hqp. induction l as [|x r IH]; [reflexivity|].
  simpl. destruct (q x) eqn:E.
  - rewrite (Hqp x E). simpl. rewrite E. reflexivity.
  - destruct (p x); simpl; rewrite ?Hg, E; exact IH.
Qed.

Lemma find_filter_frame : forall {A} (p q : A -> bool) l,
  (forall x, q x = true -> p x = true) ->
  find q (filter p l) = find q l.
Proof.
  intros A p q l H. induction l as [|x r IH]; [reflexivity|].
  simpl. destruct (q x) eqn:E.
  - rewrite (H x E). simpl. rewrite E. reflexivity.
  - destruct (p x); simpl; rewrite ?E; exact IH.
Qed.

Lemma find_none : forall {A} (p : A -> bool) l,
  (forall x, In x l -> p x = false) -> find p l = None.
Proof.
  intros A p l H. induction l as [|x r IH]; [reflexivity|].
  simpl. rewrite (H x (or_introl eq_refl)). apply IH. intros y Hy. apply H. right. exact Hy.
Qed.

Lemma find_app : forall {A} (p : A -> bool) l1 l2,
  find p (l1 ++ l2) = match find p l1 with Some x => Some x | None => find p l2 end.
Proof.
  intros A p l1 l2. induction l1 as [|x r IH]; [reflexivity|].
  simpl. destruct (p x); [reflexivity | exact IH].
Qed.

Lemma find_some_in : forall {A} (p : A -> bool) l x, find p l = Some x -> In x l /\ p x = true.
Proof.
  intros A p l x H. induction l as [|y r IH]; [discriminate|].
  simpl in H. destruct (p y) eqn:E.
  - injection H as <-. split; [left; reflexivity | exact E].
  - destruct (IH H) as [H1 H2]. split; [right; exact H1 | exact H2].
Qed.

(** ** Extra properties of [OrderRepository] *)

(** X1: after a successful [updateStatus(order_id, ...)] at time [now],
    [getOrderById(order_id)] returns the row [updateStatus] returned: the
    order found before, with the new status, the optional fields replaced
    when given, and [updated_at] set to [now]. *)
Theorem updateStatus_then_getOrderById : forall db now order_id st a d db' o',
  updateStatus db now order_id st a d = Ok (db', o') ->
  exists o, getOrderById db order_id = Some o /\ o' = set_status st a d now o /\
            getOrderById db' order_id = Some o'.
Proof.
  intros db now order_id st a d db' o' H. unfold updateStatus in H. unfold getOrderById.
  destruct (find (fun o => str_eqb (Order.id o) order_id) (orders db)) as [o|] eqn:F;
    [|discriminate].
  injection H as <- <-. exists o. split; [reflexivity|]. split; [reflexivity|].
  simpl. rewrite find_map_upd by reflexivity. rewrite F. reflexivity.
Qed.

Lemma updateStatus_then_getOrderById_witness :
  updateStatus db_ABC 36000100 [57] COMPLETED (Some [100]) None =
    Ok ({| orders := [order_A; order_B; set_status COMPLETED (Some [100]) None 36000100 order_C];
           users := users db_ABC |},
        set_status COMPLETED (Some [100]) None 36000100 order_C) /\
  exists o, getOrderById db_ABC [57] = Some o /\
    set_status COMPLETED (Some [100]) None 36000100 order_C =
      set_status COMPLETED (Some [100]) None 36000100 o /\
    getOrderById {| orders := [order_A; order_B; set_status COMPLETED (Some [100]) None 36000100 order_C];
                    users := users db_ABC |} [57] =
      Some (set_status COMPLETED (Some [100]) None 36000100 order_C).
Proof.
  split; [reflexivity|].
  apply (updateStatus_then_getOrderById db_ABC 36000100 [57] COMPLETED (Some [100]) None). reflexivity.
Defined.

(** X2: [updateStatus] fails with Prisma's record-not-found error exactly
    when [getOrderById] finds no order with that id. *)
Theorem updateStatus_not_found : forall db now order_id st a d,
  updateStatus db now order_id st a d = Throw RecordNotFound <-> getOrderById db order_id = None.
Proof.
  intros db now order_id st a d. unfold updateStatus, getOrderById.
  destruct (find _ (orders db)); split; intro H; congruence.
Qed.

(** X3: [updateStatus(order_id, ...)] touches no other order: the users
    and the number of orders are unchanged, and every other id looks up
    the same order as before. *)
Theorem updateStatus_frame : forall db now order_id st a d db' o',
  updateStatus db now order_id st a d = Ok (db', o') ->
  users db' = users db /\ length (orders db') = length (orders db) /\
  forall id', id' <> order_id -> getOrderById db' id' = getOrderById db id'.
Proof.
  intros db now order_id st a d db' o' H. unfold updateStatus in H.
  destruct (find _ (orders db)) as [o|]; [|discriminate].
  injection H as <- <-. simpl. split; [reflexivity|]. split; [apply length_map|].
  intros id' Hne. unfold getOrderById. simpl.
  apply find_map_frame; [reflexivity|].
  intros x Hx. apply str_eqb_eq in Hx. apply str_eqb_neq. congruence.
Qed.

Lemma updateStatus_frame_witness :
  updateStatus db_ABC 36000100 [57] COMPLETED None None =
    Ok ({| orders := [order_A; order_B; set_status COMPLETED None None 36000100 order_C];
           users := users db_ABC |}, set_status COMPLETED None None 36000100 order_C) /\
  [51] <> [57] /\
  users {| orders := [order_A; order_B; set_status COMPLETED None None 36000100 order_C];
           users := users db_ABC |} = users db_ABC /\
  length [order_A; order_B; set_status COMPLETED None None 36000100 order_C] = length (orders db_ABC) /\
  getOrderById {| orders := [order_A; order_B; set_status COMPLETED None None 36000100 order_C];
                  users := users db_ABC |} [51] = getOrderById db_ABC [51].
Proof.
  assert (E : updateStatus db_ABC 36000100 [57] COMPLETED None None =
    Ok ({| orders := [order_A; order_B; set_status COMPLETED None None 36000100 order_C];
           users := users db_ABC |}, set_status COMPLETED None None 36000100 order_C)) by reflexivity.
  assert (N : [51] <> [57]) by (intro H; injection H; lia).
  destruct (updateStatus_frame _ _ _ _ _ _ _ _ E) as [H1 [H2 H3]].
  split; [exact E|]. split; [exact N|]. split; [exact H1|]. split; [exact H2|].
  exact (H3 [51] N).
Defined.

Lemma filter_map_upd : forall (p : Order.t -> bool) g l,
  (forall x, p (g x) = p x) ->
  filter p (map (fun x => if p x then g x else x) l) = map g (filter p l).
Proof.
  intros p g l Hg. induction l as [|x r IH]; [reflexivity|].
  simpl. destruct (p x) eqn:E; simpl.
  - rewrite Hg, E, IH. reflexivity.
  - rewrite E. exact IH.
Qed.

(** X4: [batchUpdateStatus(order_ids, order_status)] at time [now]
    reports as its count the number of orders [getOrdersByIds(order_ids)]
    returns, and afterwards [getOrdersByIds(order_ids)] returns the same
    orders, each with the new status and [updated_at] set to [now], and
    otherwise unchanged. *)
Theorem batchUpdateStatus_getOrdersByIds : forall db now order_ids st,
  match batchUpdateStatus db now order_ids st with
  | Ok (db', n) =>
      n = Z.of_nat (length (getOrdersByIds db order_ids)) /\
      getOrdersByIds db' order_ids = map (set_status st None None now) (getOrdersByIds db order_ids) /\
      Forall (fun o => Order.order_status o = st) (getOrdersByIds db' order_ids)
  | Throw _ => False
  end.
Proof.
  intros db now order_ids st. unfold batchUpdateStatus, getOrdersByIds. simpl.
  rewrite filter_map_upd by reflexivity.
  split; [reflexivity|]. split; [reflexivity|].
  apply Forall_map, Forall_forall. reflexivity.
Qed.

(** X5: [batchUpdateStatus] leaves the orders whose id is not listed and
    the users as they were; with an empty id list it changes nothing and
    reports a count of 0. *)
Theorem batchUpdateStatus_frame : forall db now order_ids st,
  match batchUpdateStatus db now order_ids st with
  | Ok (db', n) =>
      users db' = users db /\
      (forall id', ~ In id' order_ids -> getOrderById db' id' = getOrderById db id') /\
      (order_ids = [] -> db' = db /\ n = 0)
  | Throw _ => False
  end.
Proof.
  intros db now order_ids st. unfold batchUpdateStatus. simpl.
  split; [reflexivity|]. split.
  - intros id' Hn. unfold getOrderById. simpl.
    apply find_map_frame; [reflexivity|].
    intros x Hx. apply str_eqb_eq in Hx. apply not_true_iff_false.
    rewrite in_ids_spec. congruence.
  - intros ->. destruct db as [os us]. simpl.
    assert (F : forall l, filter (in_ids []) l = []) by (induction l; simpl; auto).
    assert (M : forall l, map (fun o => if in_ids [] o then set_status st None None now o else o) l = l)
      by (induction l; simpl; f_equal; auto).
    rewrite F, M. split; reflexivity.
Qed.


(** X7: [getOrdersByUserId(user_id)] and [getOrdersByShopId(shop_id)]
    return exactly the stored orders of that user and of that shop, and
    [count({ shop_id })] counts the orders [getOrdersByShopId] returns. *)
Theorem getOrdersByUserId_ShopId_spec : forall db user_id shop_id o,
  (In o (getOrdersByUserId db user_id) <-> In o (orders db) /\ Order.user_id o = user_id) /\
  (In o (getOrdersByShopId db shop_id) <-> In o (orders db) /\ Order.shop_id o = shop_id) /\
  count db (Some (WObj [(K_shop_id, FEq (SStr shop_id))])) =
    Ok (Z.of_nat (length (getOrdersByShopId db shop_id))).
Proof.
  intros db user_id shop_id o. unfold getOrdersByUserId, getOrdersByShopId.
  rewrite !filter_In, !str_eqb_eq. split; [reflexivity|]. split; [reflexivity|].
  unfold count. simpl. do 3 f_equal. apply filter_ext. intros x. simpl. apply andb_true_r.
Qed.

(** X8: [findMany] without cursor or skip returns as many rows as
    [count] reports for the same [where], cut at [take]; for an invalid
    [where] both fail with the same validation error. *)
Theorem findMany_count : forall db w ob t,
  match count db (Some w),
        findMany db {| where_ := w; orderBy := ob; cursor := None; skip := 0; take := t |} with
  | Ok n, Ok rows => Z.of_nat (length rows) = Z.min (Z.of_nat t) n
  | Throw e1, Throw e2 => e1 = e2
  | _, _ => False
  end.
Proof.
  intros db w ob t. unfold count, findMany, find_many. simpl.
  destruct (w_valid w); simpl; [|reflexivity].
  rewrite length_firstn, sort_by_length. lia.
Qed.

(** X9: a successful [create(data)] returns [data]; afterwards
    [getOrderById] finds it by its id, the store holds one order more,
    and every order found before is still found unchanged. *)
Theorem create_then_getOrderById : forall chk db data db' o',
  create chk db data = POk (db', o') ->
  o' = data /\ getOrderById db' (Order.id data) = Some data /\
  length (orders db') = S (length (orders db)) /\
  forall id, getOrderById db id <> None -> getOrderById db' id = getOrderById db id.
Proof.
  intros chk db data db' o' H. unfold create in H.
  destruct (chk db data); [discriminate|].
  destruct (existsb _ (orders db)) eqn:Ex; [discriminate|]. cbv beta iota in H. injection H as <- <-.
  assert (Hn : forall x, In x (orders db) -> str_eqb (Order.id x) (Order.id data) = false).
  { intros x Hx. apply not_true_iff_false. intros E. apply not_true_iff_false in Ex.
    apply Ex, existsb_exists. exists x. split; assumption. }
  split; [reflexivity|]. unfold getOrderById. simpl. split.
  - rewrite find_app, find_none by exact Hn. simpl. rewrite str_eqb_refl. reflexivity.
  - split; [rewrite length_app; simpl; lia|].
    intros id Hf. rewrite find_app. destruct (find _ (orders db)); [reflexivity|].
    exfalso. apply Hf. reflexivity.
Qed.

Lemma create_then_getOrderById_witness :
  create (fun _ _ => None) db_ABC (mk_order [52] [68] 0) =
    POk ({| orders := orders db_ABC ++ [mk_order [52] [68] 0]; users := users db_ABC |},
         mk_order [52] [68] 0) /\
  (mk_order [52] [68] 0 = mk_order [52] [68] 0 /\
   getOrderById {| orders := orders db_ABC ++ [mk_order [52] [68] 0]; users := users db_ABC |}
     (Order.id (mk_order [52] [68] 0)) = Some (mk_order [52] [68] 0) /\
   length (orders db_ABC ++ [mk_order [52] [68] 0]) = S (length (orders db_ABC)) /\
   forall id, getOrderById db_ABC id <> None ->
     getOrderById {| orders := orders db_ABC ++ [mk_order [52] [68] 0]; users := users db_ABC |} id
     = getOrderById db_ABC id).
Proof.
  split; [reflexivity|].
  apply (create_then_getOrderById (fun _ _ => None) db_ABC (mk_order [52] [68] 0)). reflexivity.
Defined.

(** X10: [create(data)] with the id of a stored order never succeeds: it
    fails with the error of the schema's checks that come before the
    primary key when one of them fails, and with Prisma's unique-constraint
    error otherwise. *)
Theorem create_duplicate_id : forall chk db data,
  getOrderById db (Order.id data) <> None ->
  create chk db data = PErr (match chk db data with Some c => c | None => P2002 end).
Proof.
  intros chk db data H. unfold create.
  destruct (chk db data); [reflexivity|].
  destruct (existsb _ (orders db)) eqn:Ex; [reflexivity|]. exfalso. apply H.
  unfold getOrderById. apply find_none. intros x Hx.
  apply not_true_iff_false. intros E. apply not_true_iff_false in Ex.
  apply Ex, existsb_exists. exists x. split; assumption.
Qed.

Lemma create_duplicate_id_witness :
  getOrderById db_ABC (Order.id (mk_order [51] [68] 0)) <> None /\
  create (fun _ _ => None) db_ABC (mk_order [51] [68] 0) = PErr P2002 /\
  create (fun _ _ => Some P2025) db_ABC (mk_order [51] [68] 0) = PErr P2025.
Proof.
  assert (H : getOrderById db_ABC (Order.id (mk_order [51] [68] 0)) <> None) by discriminate.
  split; [exact H|]. split.
  - exact (create_duplicate_id (fun _ _ => None) db_ABC _ H).
  - exact (create_duplicate_id (fun _ _ => Some P2025) db_ABC _ H).
Defined.

(** ** Extra properties of [ShopServices] *)

Import ShopServices.

Lemma existsb_false_in : forall {A} (f : A -> bool) l x,
  existsb f l = false -> In x l -> f x = false.
Proof.
  intros A f l x H Hx. apply not_true_iff_false. intros E.
  apply not_true_iff_false in H. apply H, existsb_exists. exists x. split; assumption.
Qed.

(** X11: after a successful [createShop(data)], [getShopById] and
    [getShopByOwnerId] find the new shop by its id and by its owner, and
    every shop found by id before is still found unchanged. *)
Theorem createShop_then_get : forall chk shops data shops' s',
  createShop chk shops data = POk (shops', s') ->
  s' = data /\ getShopById shops' (Shop.id data) = Some data /\
  getShopByOwnerId shops' (Shop.owner_id data) = Some data /\
  forall id, getShopById shops id <> None -> getShopById shops' id = getShopById shops id.
Proof.
  intros chk shops data shops' s' H. unfold createShop in H.
  destruct (existsb _ shops) eqn:Eo; [discriminate|].
  destruct (chk shops data); [discriminate|].
  destruct (existsb (fun s => str_eqb (Shop.id s) (Shop.id data)) shops) eqn:Ei; [discriminate|]. cbv beta iota in H. injection H as <- <-.
  split; [reflexivity|]. unfold getShopById, getShopByOwnerId.
  split; [|split].
  - rewrite find_app, find_none; [simpl; rewrite str_eqb_refl; reflexivity|].
    intros x Hx. exact (existsb_false_in _ _ _ Ei Hx).
  - rewrite find_app, find_none; [simpl; rewrite str_eqb_refl; reflexivity|].
    intros x Hx. exact (existsb_false_in _ _ _ Eo Hx).
  - intros id Hf. rewrite find_app. destruct (find _ shops); [reflexivity|].
    exfalso. apply Hf. reflexivity.
Qed.

Lemma createShop_then_get_witness :
  createShop (fun _ _ => None) [shop_s1] shop_s2 = POk ([shop_s1; shop_s2], shop_s2) /\
  (shop_s2 = shop_s2 /\ getShopById [shop_s1; shop_s2] (Shop.id shop_s2) = Some shop_s2 /\
   getShopByOwnerId [shop_s1; shop_s2] (Shop.owner_id shop_s2) = Some shop_s2 /\
   forall id, getShopById [shop_s1] id <> None ->
     getShopById [shop_s1; shop_s2] id = getShopById [shop_s1] id).
Proof.
  split; [reflexivity|].
  apply (createShop_then_get (fun _ _ => None) [shop_s1] shop_s2). reflexivity.
Defined.

Lemma find_none_existsb : forall {A} (p : A -> bool) l,
  find p l = None <-> existsb p l = false.
Proof.
  intros A p l. induction l as [|x r IH]; simpl; [split; reflexivity|].
  destruct (p x); simpl; [split; discriminate | exact IH].
Qed.

(** X12: [createShop(data)] for an owner who already has a shop fails with
    [P2014], the engine's refusal of the owner's [connect]. For an owner
    without a shop and the id of a stored shop, it fails with the error of
    the schema's checks when one of them fails, and with Prisma's
    unique-constraint error otherwise. *)
Theorem createShop_taken : forall chk shops data,
  (getShopByOwnerId shops (Shop.owner_id data) <> None ->
   createShop chk shops data = PErr P2014) /\
  (getShopByOwnerId shops (Shop.owner_id data) = None ->
   getShopById shops (Shop.id data) <> None ->
   createShop chk shops data = PErr (match chk shops data with Some c => c | None => P2002 end)).
Proof.
  intros chk shops data. unfold createShop, getShopById, getShopByOwnerId. split.
  - intros H. destruct (existsb _ shops) eqn:Eo; [reflexivity|].
    exfalso. apply H, find_none_existsb. exact Eo.
  - intros Ho Hi. apply find_none_existsb in Ho. rewrite Ho.
    destruct (chk shops data); [reflexivity|].
    destruct (existsb (fun s => str_eqb (Shop.id s) (Shop.id data)) shops) eqn:Ei;
      [reflexivity|].
    exfalso. apply Hi, find_none_existsb. exact Ei.
Qed.

Lemma createShop_taken_witness :
  getShopByOwnerId [shop_s1] (Shop.owner_id shop_u3) <> None /\
  createShop (fun _ _ => None) [shop_s1] shop_u3 = PErr P2014 /\
  getShopByOwnerId [shop_s1] (Shop.owner_id shop_w1) = None /\
  getShopById [shop_s1] (Shop.id shop_w1) <> None /\
  createShop (fun _ _ => None) [shop_s1] shop_w1 = PErr P2002 /\
  createShop (fun _ _ => Some P2003) [shop_s1] shop_w1 = PErr P2003.
Proof.
  assert (H1 : getShopByOwnerId [shop_s1] (Shop.owner_id shop_u3) <> None) by discriminate.
  assert (H2 : getShopByOwnerId [shop_s1] (Shop.owner_id shop_w1) = None) by reflexivity.
  assert (H3 : getShopById [shop_s1] (Shop.id shop_w1) <> None) by discriminate.
  split; [exact H1|]. split; [exact (proj1 (createShop_taken (fun _ _ => None) _ _) H1)|].
  split; [exact H2|]. split; [exact H3|]. split.
  - exact (proj2 (createShop_taken (fun _ _ => None) _ _) H2 H3).
  - exact (proj2 (createShop_taken (fun _ _ => Some P2003) _ _) H2 H3).
Defined.

(** X13: after a successful [updateShop(shop_id, data)], the returned row
    is [data] applied to the shop stored under [shop_id], and
    [getShopById] and [getShopByOwnerId] find it by its (possibly new) id
    and owner. *)
Theorem updateShop_then_get : forall chk shops shop_id data shops' row,
  updateShop chk shops shop_id data = POk (shops', row) ->
  (exists old, getShopById shops shop_id = Some old /\ row = data old) /\
  getShopById shops' (Shop.id row) = Some row /\
  getShopByOwnerId shops' (Shop.owner_id row) = Some row.
Proof.
  intros chk shops shop_id data shops' row H. unfold updateShop in H.
  destruct (getShopById shops shop_id) as [old|] eqn:G; [|discriminate].
  destruct (existsb _ shops) eqn:Eo; [discriminate|].
  destruct (chk shops old (data old)); [discriminate|].
  destruct (existsb (fun s => negb (str_eqb (Shop.id s) shop_id) &&
                               str_eqb (Shop.id s) (Shop.id (data old))) shops) eqn:Ei;
    [discriminate|]. cbv beta iota in H. injection H as <- <-.
  split; [exists old; split; reflexivity|].
  assert (Hin : exists x, In x shops /\ str_eqb (Shop.id x) shop_id = true).
  { unfold getShopById in G. apply find_some_in in G. exists old. exact G. }
  assert (Hoth : forall x, In x shops -> str_eqb (Shop.id x) shop_id = false ->
                   str_eqb (Shop.id x) (Shop.id (data old)) = false /\
                   str_eqb (Shop.owner_id x) (Shop.owner_id (data old)) = false).
  { intros x Hx Hne. pose proof (existsb_false_in _ _ _ Ei Hx) as C1.
    pose proof (existsb_false_in _ _ _ Eo Hx) as C2. simpl in C1, C2.
    rewrite Hne in C1, C2. simpl in C1, C2. split; assumption. }
  clear G Eo Ei. unfold getShopById, getShopByOwnerId.
  split; induction shops as [|x r IH]; destruct Hin as [y [Hy Ey]]; try contradiction;
    simpl; destruct (str_eqb (Shop.id x) shop_id) eqn:E; simpl;
    try (rewrite str_eqb_refl; reflexivity);
    (destruct (Hoth x (or_introl eq_refl) E) as [C1 C2]; first [rewrite C1 | rewrite C2]);
    (apply IH; [| intros z Hz; apply Hoth; right; exact Hz]);
    (destruct Hy as [<- | Hy]; [congruence | exists y; split; assumption]).
Qed.

Lemma updateShop_then_get_witness :
  updateShop (fun _ _ _ => None) [shop_s1; shop_s2] [49]
    (fun s => {| Shop.id := Shop.id s; Shop.owner_id := Shop.owner_id s;
                 Shop.name := [79]; Shop.description := Shop.description s |}) =
    POk ([{| Shop.id := [49]; Shop.owner_id := [117]; Shop.name := [79]; Shop.description := [] |};
          shop_s2],
         {| Shop.id := [49]; Shop.owner_id := [117]; Shop.name := [79]; Shop.description := [] |}) /\
  getShopById [{| Shop.id := [49]; Shop.owner_id := [117]; Shop.name := [79]; Shop.description := [] |};
               shop_s2] [49] =
    Some {| Shop.id := [49]; Shop.owner_id := [117]; Shop.name := [79]; Shop.description := [] |}.
Proof.
  assert (E : updateShop (fun _ _ _ => None) [shop_s1; shop_s2] [49]
    (fun s => {| Shop.id := Shop.id s; Shop.owner_id := Shop.owner_id s;
                 Shop.name := [79]; Shop.description := Shop.description s |}) =
    POk ([{| Shop.id := [49]; Shop.owner_id := [117]; Shop.name := [79]; Shop.description := [] |};
          shop_s2],
         {| Shop.id := [49]; Shop.owner_id := [117]; Shop.name := [79]; Shop.description := [] |}))
    by reflexivity.
  split; [exact E|]. exact (proj1 (proj2 (updateShop_then_get _ _ _ _ _ _ E))).
Defined.

(** X14: a successful [deleteShop(shop_id)] returns the shop stored under
    [shop_id]; afterwards [getShopById(shop_id)] finds nothing, the store
    holds fewer shops, and every other id finds the same shop as before. *)
Theorem deleteShop_then_get : forall chk shops shop_id shops' old,
  deleteShop chk shops shop_id = POk (shops', old) ->
  getShopById shops shop_id = Some old /\ getShopById shops' shop_id = None /\
  (length shops' < length shops)%nat /\
  forall id, id <> shop_id -> getShopById shops' id = getShopById shops id.
Proof.
  intros chk shops shop_id shops' old H. unfold deleteShop in H.
  destruct (getShopById shops shop_id) as [o|] eqn:G; [|discriminate].
  destruct (chk o); [discriminate|]. cbv beta iota in H. injection H as <- <-.
  split; [reflexivity|]. unfold getShopById in *. split; [|split].
  - apply find_none. intros x Hx. apply filter_In in Hx as [_ Hx].
    apply negb_true_iff in Hx. exact Hx.
  - apply find_some_in in G as [Hin Ho]. clear -Hin Ho.
    induction shops as [|x r IH]; [contradiction|]. simpl.
    destruct Hin as [<- | Hin].
    + rewrite Ho. simpl. pose proof (filter_length_le (fun s => negb (str_eqb (Shop.id s) shop_id)) r).
      lia.
    + destruct (negb _); simpl; pose proof (IH Hin); lia.
  - intros id Hne. apply find_filter_frame. intros x Hx. apply str_eqb_eq in Hx.
    apply negb_true_iff, str_eqb_neq. congruence.
Qed.

Lemma deleteShop_then_get_witness :
  deleteShop (fun _ => None) [shop_s1; shop_s2] [49] = POk ([shop_s2], shop_s1) /\
  getShopById [shop_s2] [49] = None.
Proof.
  assert (E : deleteShop (fun _ => None) [shop_s1; shop_s2] [49] = POk ([shop_s2], shop_s1))
    by reflexivity.
  split; [exact E|]. exact (proj1 (proj2 (deleteShop_then_get _ _ _ _ _ E))).
Defined.

Lemma keys_distinct_NoDup : forall ks, keys_distinct ks = true <-> NoDup ks.
Proof.
  induction ks as [|k r IH]; simpl.
  - split; [constructor | reflexivity].
  - rewrite andb_true_iff, negb_true_iff, IH, NoDup_cons_iff. split; intros [H1 H2]; split; auto.
    + intros Hin. apply not_true_iff_false in H1. apply H1, existsb_exists.
      exists k. split; [exact Hin | apply str_eqb_refl].
    + apply not_true_iff_false. intros E. apply existsb_exists in E as [x [Hx Ex]].
      apply str_eqb_eq in Ex. subst. contradiction.
Qed.

Lemma nodup_map_replace : forall (K : Shop.t -> jsstring) l k row,
  NoDup (map Shop.id l) -> NoDup (map K l) ->
  (forall s, In s l -> str_eqb (Shop.id s) k = false -> K row <> K s) ->
  NoDup (map K (map (fun s => if str_eqb (Shop.id s) k then row else s) l)).
Proof.
  intros K l k row. induction l as [|x r IH]; intros Hid HK Hrow; simpl; [constructor|].
  apply NoDup_cons_iff in Hid as [Hidx Hidr]. apply NoDup_cons_iff in HK as [HKx HKr].
  destruct (str_eqb (Shop.id x) k) eqn:E.
  - apply str_eqb_eq in E. subst k.
    assert (Hr : map (fun s => if str_eqb (Shop.id s) (Shop.id x) then row else s) r = r).
    { clear -Hidx. induction r as [|y r IH]; [reflexivity|]. simpl.
      replace (str_eqb (Shop.id y) (Shop.id x)) with false.
      - f_equal. apply IH. intros H. apply Hidx. right. exact H.
      - symmetry. apply str_eqb_neq. intros H. apply Hidx. left. exact H. }
    rewrite Hr. constructor; [|exact HKr].
    intros Hin. apply in_map_iff in Hin as [s [Es Hs]].
    refine (Hrow s (or_intror Hs) _ (eq_sym Es)).
    apply str_eqb_neq. intros H. apply Hidx. rewrite <- H. apply in_map. exact Hs.
  - constructor.
    + intros Hin. rewrite map_map in Hin. apply in_map_iff in Hin as [s [Es Hs]].
      destruct (str_eqb (Shop.id s) k) eqn:Fs.
      * exact (Hrow x (or_introl eq_refl) E Es).
      * apply HKx. rewrite <- Es. apply in_map. exact Hs.
    + apply IH; [exact Hidr | exact HKr |]. intros s Hs. apply Hrow. right. exact Hs.
Qed.

Lemma nodup_map_filter : forall (K : Shop.t -> jsstring) p l,
  NoDup (map K l) -> NoDup (map K (filter p l)).
Proof.
  intros K p l. induction l as [|x r IH]; intros H; simpl; [constructor|].
  apply NoDup_cons_iff in H as [Hx Hr]. destruct (p x); simpl; [|auto].
  constructor; [|auto]. intros Hin. apply Hx.
  apply in_map_iff in Hin as [s [Es Hs]]. apply filter_In in Hs as [Hs _].
  rewrite <- Es. apply in_map. exact Hs.
Qed.

(** X15: [createShop], [updateShop] and [deleteShop] keep the shops'
    ids distinct and their owners distinct: an owner never ends up with
    two shops. *)
Theorem shop_writes_keep_unique : forall cc uc dc shops data shop_id f,
  shops_unique shops = true ->
  (forall shops' r, createShop cc shops data = POk (shops', r) -> shops_unique shops' = true) /\
  (forall shops' r, updateShop uc shops shop_id f = POk (shops', r) -> shops_unique shops' = true) /\
  (forall shops' r, deleteShop dc shops shop_id = POk (shops', r) -> shops_unique shops' = true).
Proof.
  intros cc uc dc shops data shop_id f H. unfold shops_unique in *.
  apply andb_true_iff in H as [Hi Ho]. apply keys_distinct_NoDup in Hi, Ho.
  split; [|split]; intros shops' r E; apply andb_true_iff; rewrite !keys_distinct_NoDup.
  - unfold createShop in E. destruct (existsb _ shops) eqn:Eo; [discriminate|].
    destruct (cc shops data); [discriminate|].
    destruct (existsb (fun s => str_eqb (Shop.id s) (Shop.id data)) shops) eqn:Ei; [discriminate|]. cbv beta iota in E. injection E as <- <-.
    rewrite !map_app. simpl.
    split; apply NoDup_app; try assumption; try (constructor; [intros [] | constructor]);
      intros a Ha [Eq | []]; apply in_map_iff in Ha as [s [Es Hs]];
      pose proof (existsb_false_in _ _ _ Ei Hs) as C1;
      pose proof (existsb_false_in _ _ _ Eo Hs) as C2; simpl in C1, C2;
      apply str_eqb_neq in C1, C2; congruence.
  - unfold updateShop in E. destruct (getShopById shops shop_id) as [old|]; [|discriminate].
    destruct (existsb _ shops) eqn:Eo; [discriminate|].
    destruct (uc shops old (f old)); [discriminate|].
    destruct (existsb (fun s => negb (str_eqb (Shop.id s) shop_id) &&
                                 str_eqb (Shop.id s) (Shop.id (f old))) shops) eqn:Ei;
      [discriminate|]. cbv beta iota in E. injection E as <- <-.
    split; apply nodup_map_replace; try assumption; intros s Hs Hne;
      pose proof (existsb_false_in _ _ _ Ei Hs) as C1;
      pose proof (existsb_false_in _ _ _ Eo Hs) as C2; simpl in C1, C2;
      rewrite Hne in C1, C2; simpl in C1, C2;
      apply str_eqb_neq in C1, C2; intros Eq; congruence.
  - unfold deleteShop in E. destruct (getShopById shops shop_id) as [old|]; [|discriminate].
    destruct (dc old); [discriminate|]. cbv beta iota in E. injection E as <- <-.
    split; apply nodup_map_filter; assumption.
Qed.

Lemma shop_writes_keep_unique_witness :
  shops_unique [shop_s1; shop_s2] = true /\
  (forall shops' r, createShop (fun _ _ => None) [shop_s1; shop_s2] shop_s1 = POk (shops', r) ->
                    shops_unique shops' = true) /\
  (forall shops' r, updateShop (fun _ _ _ => None) [shop_s1; shop_s2] [49] (fun s => s) = POk (shops', r) ->
                    shops_unique shops' = true) /\
  (forall shops' r, deleteShop (fun _ => None) [shop_s1; shop_s2] [49] = POk (shops', r) ->
                    shops_unique shops' = true).
Proof.
  assert (H : shops_unique [shop_s1; shop_s2] = true) by reflexivity.
  split; [exact H|].
  exact (shop_writes_keep_unique (fun _ _ => None) (fun _ _ _ => None) (fun _ => None)
           [shop_s1; shop_s2] shop_s1 [49] (fun s => s) H).
Defined.

(** ** Pagination and [update] *)

Lemma insert_by_perm : forall ob x l, Permutation (insert_by ob x l) (x :: l).
Proof.
  intros ob x l. induction l as [|y r IH]; simpl; [reflexivity|].
  destruct (order_compare ob x y); try reflexivity.
  rewrite IH. apply perm_swap.
Qed.

Lemma sort_by_perm : forall ob l, Permutation (sort_by ob l) l.
Proof.
  intros ob l. induction l as [|x r IH]; simpl; [reflexivity|].
  rewrite insert_by_perm. apply perm_skip. exact IH.
Qed.

Lemma In_firstn : forall {A} n (l : list A) x, In x (firstn n l) -> In x l.
Proof.
  intros A n l x H. rewrite <- (firstn_skipn n l). apply in_or_app. left. exact H.
Qed.

Lemma In_skipn : forall {A} n (l : list A) x, In x (skipn n l) -> In x l.
Proof.
  intros A n l x H. rewrite <- (firstn_skipn n l). apply in_or_app. right. exact H.
Qed.

Lemma find_many_sound : forall db a rows,
  find_many db a = Ok rows ->
  forall x, In x rows -> In x (orders db) /\ w_holds db (where_ a) x = true.
Proof.
  intros db a rows H x Hx. unfold find_many in H.
  destruct (negb (w_valid (where_ a))); [discriminate|]. injection H as <-.
  apply In_firstn, In_skipn in Hx.
  assert (Hs : In x (sort_by (total_order_by (orderBy a)) (filter (w_holds db (where_ a)) (orders db)))).
  { destruct (cursor a) as [c|]; [|exact Hx].
    destruct (find _ (orders db)); [|contradiction]. apply filter_In in Hx. apply Hx. }
  apply (Permutation_in _ (sort_by_perm _ _)), filter_In in Hs. exact Hs.
Qed.

Lemma w_holds_entries : forall db es x,
  w_holds db (WObj es) x = forallb (fun '(k, f) => f_holds db k f x) es.
Proof.
  intros db es x. induction es as [|[k f] r IH]; [reflexivity|].
  simpl. f_equal. exact IH.
Qed.

Lemma key_eqb_neq : forall k k', k <> k' -> key_eqb k k' = false.
Proof. intros [] [] H; try reflexivity; exfalso; apply H; reflexivity. Qed.

Lemma obj_set_keep : forall es k f k' f',
  k <> k' -> In (k', f') es -> In (k', f') (obj_set es k f).
Proof.
  intros es k f k' f' Hne. induction es as [|[k1 f1] r IH]; simpl; [contradiction|].
  intros [E | Hin].
  - injection E as -> ->. rewrite key_eqb_neq by exact Hne. left. reflexivity.
  - destruct (key_eqb k k1); [right; exact Hin | right; apply IH; exact Hin].
Qed.

Lemma obj_spread_keep : forall b a k' f',
  (forall k f, In (k, f) b -> k <> k') -> In (k', f') a -> In (k', f') (obj_spread a b).
Proof.
  unfold obj_spread. induction b as [|[k f] r IH]; intros a k' f' Hb Ha; simpl; [exact Ha|].
  apply IH.
  - intros k1 f1 H. apply (Hb k1 f1). right. exact H.
  - apply obj_set_keep; [apply (Hb k f); left; reflexivity | exact Ha].
Qed.

Lemma cursor_condition_keys : forall rt c k f,
  In (k, f) (cursor_condition rt c) -> k = K_OR.
Proof.
  intros rt c k f H. unfold cursor_condition in H.
  destruct c as [c|]; [|contradiction].
  destruct (truthy (Some c)); [|contradiction].
  destruct (Cursor.decode rt c) as [[d v]|]; [|contradiction].
  destruct H as [E | []]. injection E as <- _. reflexivity.
Qed.

Lemma base_where_entries : forall s t os dr,
  In (K_shop_id, FEq (SStr s)) (base_where s t os dr) /\
  (forall st, os = Some st -> In (K_order_status, FEq (SStatus st)) (base_where s t os dr)) /\
  (forall a b, dr = Some (a, b) ->
     In (K_created_at, FRange (SDate (Some a)) (SDate (Some b))) (base_where s t os dr)).
Proof.
  intros s t os dr.
  destruct os as [st|], dr as [[a b]|], t as [[|u t]|]; simpl;
    (split; [|split]); intros; try discriminate;
    repeat match goal with H : Some _ = Some _ |- _ => injection H; intros; subst end;
    simpl; repeat (first [left; reflexivity | right]).
Qed.

Lemma base_where_valid : forall s t os dr, w_valid (WObj (base_where s t os dr)) = true.
Proof.
  intros s t os dr. destruct os as [st|], dr as [[a b]|], t as [[|u t]|]; reflexivity.
Qed.

Lemma status_eqb_eq : forall a b, status_eqb a b = true -> a = b.
Proof.
  intros [| | |x] [| | |y] H; try discriminate; try reflexivity.
  apply Nat.eqb_eq in H. subst. reflexivity.
Qed.

Lemma scope_of_entries : forall db es x s os dr,
  w_holds db (WObj es) x = true ->
  In (K_shop_id, FEq (SStr s)) es ->
  (forall st, os = Some st -> In (K_order_status, FEq (SStatus st)) es) ->
  (forall a b, dr = Some (a, b) -> In (K_created_at, FRange (SDate (Some a)) (SDate (Some b))) es) ->
  Order.shop_id x = s /\
  (forall st, os = Some st -> Order.order_status x = st) /\
  (forall a b, dr = Some (a, b) -> a <= Order.created_at x <= b).
Proof.
  intros db es x s os dr H Hs Ho Hd. rewrite w_holds_entries, forallb_forall in H.
  split; [|split].
  - apply str_eqb_eq. exact (H _ Hs).
  - intros st E. apply status_eqb_eq. exact (H _ (Ho st E)).
  - intros a b E. pose proof (H _ (Hd a b E)) as F. simpl in F.
    apply andb_true_iff in F as [F1 F2]. apply Z.leb_le in F1, F2. lia.
Qed.

Lemma In_removelast : forall {A} (l : list A) x, In x (removelast l) -> In x l.
Proof.
  intros A l x H. destruct l as [|y r]; [contradiction|].
  rewrite (app_removelast_last y (l := y :: r)) by discriminate.
  apply in_or_app. left. exact H.
Qed.

Lemma length_removelast : forall {A} (l : list A), length (removelast l) = (length l - 1)%nat.
Proof.
  intros A l. destruct l as [|y r]; [reflexivity|].
  pose proof (app_removelast_last y (l := y :: r) ltac:(discriminate)) as E.
  apply (f_equal (@length A)) in E. rewrite length_app in E. cbn [length] in E. simpl (length (y :: r)). lia.
Qed.

(** X16: every order on a page of [getPaginatedShopOrders], by either
    strategy, is a stored order of the requested shop that satisfies the
    requested status and date-range filters. *)
Theorem page_in_scope : forall rt db o p,
  getPaginatedShopOrders rt db o = Ok p ->
  forall x, In x (page_orders p) ->
  In x (orders db) /\ Order.shop_id x = Opts.shop_id o /\
  (forall st, Opts.orderStatus o = Some st -> Order.order_status x = st) /\
  (forall a b, Opts.dateRange o = Some (a, b) -> a <= Order.created_at x <= b).
Proof.
  intros rt db o p H x Hx. unfold getPaginatedShopOrders in H.
  destruct (truthy (Opts.searchTerm o)); simpl in H.
  - unfold searchShopOrders in H.
    destruct (find_many _ _) as [rows|] eqn:F; simpl in H; [|discriminate].
    assert (Hr : In x rows).
    { destruct (Nat.ltb _ _).
      - destruct (js_at _ _); [|discriminate]. injection H as <-. apply In_removelast. exact Hx.
      - injection H as <-. exact Hx. }
    destruct (find_many_sound _ _ _ F x Hr) as [Hin Hw]. simpl in Hw.
    split; [exact Hin|].
    destruct (base_where_entries (Opts.shop_id o) (Opts.searchTerm o) (Opts.orderStatus o)
                (Opts.dateRange o)) as [E1 [E2 E3]].
    assert (K : forall k f, In (k, f) (cursor_condition rt (Opts.cursor o)) ->
                  forall k', k' <> K_OR -> k <> k').
    { intros k f Hk k' Hne. rewrite (cursor_condition_keys _ _ _ _ Hk). congruence. }
    apply (scope_of_entries db _ x _ _ _ Hw).
    + apply obj_spread_keep; [intros k f Hk; apply (K k f Hk); discriminate | exact E1].
    + intros st E. apply obj_spread_keep; [intros k f Hk; apply (K k f Hk); discriminate | exact (E2 st E)].
    + intros a b E. apply obj_spread_keep; [intros k f Hk; apply (K k f Hk); discriminate | exact (E3 a b E)].
  - unfold getPaginatedShopOrdersFromDB in H. simpl in H.
    destruct (find_many _ _) as [rows|] eqn:F; simpl in H; [|discriminate].
    assert (Hr : In x rows).
    { destruct (Nat.ltb _ _).
      - destruct (rev rows) as [|n kept] eqn:R; injection H as <-; [exact Hx|].
        simpl in Hx. apply in_rev. rewrite R. right. apply in_rev. exact Hx.
      - injection H as <-. exact Hx. }
    destruct (find_many_sound _ _ _ F x Hr) as [Hin Hw]. simpl in Hw.
    split; [exact Hin|].
    destruct (base_where_entries (Opts.shop_id o) None (Opts.orderStatus o) (Opts.dateRange o))
      as [E1 [E2 E3]].
    exact (scope_of_entries db _ x _ _ _ Hw E1 E2 E3).
Qed.

Lemma page_in_scope_witness :
  getPaginatedShopOrders rt0 db_ABC (req 5 None (Some [65])) =
    Ok {| page_orders := [order_A; order_C]; nextCursor := None |} /\
  In order_C (orders db_ABC) /\ Order.shop_id order_C = [115] /\
  (forall st, None = Some st -> Order.order_status order_C = st) /\
  (forall a b, None = Some (a, b) -> a <= Order.created_at order_C <= b).
Proof.
  assert (E : getPaginatedShopOrders rt0 db_ABC (req 5 None (Some [65])) =
    Ok {| page_orders := [order_A; order_C]; nextCursor := None |}) by reflexivity.
  split; [exact E|].
  exact (page_in_scope rt0 db_ABC (req 5 None (Some [65])) _ E order_C (or_intror (or_introl eq_refl))).
Defined.

(** X17: a page of [getPaginatedShopOrders] never holds more than [limit]
    orders (10 by default), and when it reports a next cursor it holds
    exactly [limit] orders. *)
Theorem page_size : forall rt db o p,
  getPaginatedShopOrders rt db o = Ok p ->
  let limit := match Opts.limit o with Some l => l | None => 10%nat end in
  (length (page_orders p) <= limit)%nat /\
  (nextCursor p <> None -> length (page_orders p) = limit).
Proof.
  intros rt db o p H limit. unfold getPaginatedShopOrders in H. fold limit in H.
  destruct (truthy (Opts.searchTerm o)); simpl in H.
  - unfold searchShopOrders in H. fold limit in H.
    destruct (find_many _ _) as [rows|] eqn:F; simpl in H; [|discriminate].
    apply find_many_length in F. simpl in F.
    destruct (Nat.ltb limit (length rows)) eqn:L.
    + apply Nat.ltb_lt in L. destruct (js_at _ _); [|discriminate]. injection H as <-. simpl.
      rewrite length_removelast. split; [lia | intros _; lia].
    + apply Nat.ltb_ge in L. injection H as <-. simpl. split; [lia | intros N; exfalso; apply N; reflexivity].
  - unfold getPaginatedShopOrdersFromDB in H. simpl in H. fold limit in H.
    destruct (find_many _ _) as [rows|] eqn:F; simpl in H; [|discriminate].
    apply find_many_length in F. simpl in F.
    destruct (Nat.ltb limit (length rows)) eqn:L.
    + apply Nat.ltb_lt in L. destruct (rev rows) as [|n kept] eqn:R.
      * apply (f_equal (@length Order.t)) in R. rewrite length_rev in R. simpl in R. lia.
      * injection H as <-. simpl. rewrite length_rev.
        apply (f_equal (@length Order.t)) in R. rewrite length_rev in R. simpl in R.
        split; [lia | intros _; lia].
    + apply Nat.ltb_ge in L. injection H as <-. simpl. split; [lia | intros N; exfalso; apply N; reflexivity].
Qed.

Lemma page_size_witness :
  getPaginatedShopOrders rt0 db_ABC (req 1 None (Some [65])) =
    Ok {| page_orders := [order_A];
          nextCursor := Some (Cursor.encode (Order.created_at order_A) (Order.id order_A)) |} /\
  (length [order_A] <= 1)%nat /\
  (Some (Cursor.encode (Order.created_at order_A) (Order.id order_A)) <> None ->
   length [order_A] = 1%nat).
Proof.
  assert (E : getPaginatedShopOrders rt0 db_ABC (req 1 None (Some [65])) =
    Ok {| page_orders := [order_A];
          nextCursor := Some (Cursor.encode (Order.created_at order_A) (Order.id order_A)) |})
    by (vm_compute; reflexivity).
  split; [exact E|]. exact (page_size rt0 db_ABC (req 1 None (Some [65])) _ E).
Defined.

Lemma base_where_falsy : forall s t os dr,
  truthy t = false -> base_where s t os dr = base_where s None os dr.
Proof. intros s [[|u t]|] os dr H; try reflexivity; discriminate. Qed.

Lemma find_many_all : forall db w ob t,
  w_valid w = true -> (length (filter (w_holds db w) (orders db)) <= t)%nat ->
  find_many db {| where_ := w; orderBy := ob; cursor := None; skip := 0; take := t |} =
    Ok (sort_by (total_order_by ob) (filter (w_holds db w) (orders db))).
Proof.
  intros db w ob t Hv Hl. unfold find_many. simpl. rewrite Hv. simpl.
  rewrite firstn_all2; [reflexivity|]. rewrite sort_by_length. exact Hl.
Qed.

(** X18: when the request has no cursor and at most [limit] orders
    match it, [getPaginatedShopOrders] returns all of them on one page,
    with no next cursor. *)
Theorem first_page_complete : forall rt db o,
  Opts.cursor o = None ->
  (length (matching db o) <= match Opts.limit o with Some l => l | None => 10 end)%nat ->
  exists p, getPaginatedShopOrders rt db o = Ok p /\
            Permutation (page_orders p) (matching db o) /\ nextCursor p = None.
Proof.
  intros rt db o Hc Hl. unfold matching in Hl |- *. unfold getPaginatedShopOrders.
  set (limit := match Opts.limit o with Some l => l | None => 10%nat end) in *.
  destruct (truthy (Opts.searchTerm o)) eqn:T; cbn [negb].
  - unfold searchShopOrders. fold limit. rewrite Hc. simpl (cursor_condition rt None).
    change (obj_spread ?w []) with w.
    rewrite find_many_all by (apply base_where_valid || lia). cbn [bind].
    rewrite sort_by_length. replace (Nat.ltb limit _) with false by (symmetry; apply Nat.ltb_ge; lia).
    eexists; split; [reflexivity|]. split; [apply sort_by_perm | reflexivity].
  - unfold getPaginatedShopOrdersFromDB.
    cbn [Opts.cursor Opts.limit Opts.searchTerm Opts.shop_id Opts.orderStatus Opts.dateRange truthy].
    rewrite (base_where_falsy _ _ _ _ T) in Hl |- *. rewrite Hc. cbn [truthy].
    rewrite find_many_all by (apply base_where_valid || lia). cbn [bind].
    rewrite sort_by_length. replace (Nat.ltb limit _) with false by (symmetry; apply Nat.ltb_ge; lia).
    eexists; split; [reflexivity|]. split; [apply sort_by_perm | reflexivity].
Qed.

Lemma first_page_complete_witness :
  exists p, getPaginatedShopOrders rt0 db_ABC (req 5 None (Some [65])) = Ok p /\
            Permutation (page_orders p) (matching db_ABC (req 5 None (Some [65]))) /\
            nextCursor p = None.
Proof.
  apply (first_page_complete rt0 db_ABC (req 5 None (Some [65]))); [reflexivity | vm_compute; lia].
Defined.

(** X19: without a search term, a cursor naming no stored order (for
    instance an order deleted since the previous page) yields an empty
    page with no next cursor, so the listing ends there. *)
Theorem stale_cursor_ends_listing : forall rt db o c,
  truthy (Opts.searchTerm o) = false -> Opts.cursor o = Some c -> c <> [] ->
  getOrderById db c = None ->
  getPaginatedShopOrders rt db o = Ok {| page_orders := []; nextCursor := None |}.
Proof.
  intros rt db o c T Hc Hne Hf. unfold getPaginatedShopOrders. rewrite T. cbn [negb].
  unfold getPaginatedShopOrdersFromDB.
  cbn [Opts.cursor Opts.limit Opts.searchTerm Opts.shop_id Opts.orderStatus Opts.dateRange].
  rewrite Hc. destruct c as [|u c]; [contradiction|]. cbn [truthy].
  unfold find_many. cbn [where_ orderBy cursor skip take]. rewrite base_where_valid. cbn [negb].
  unfold getOrderById in Hf. rewrite Hf. reflexivity.
Qed.

Lemma stale_cursor_ends_listing_witness :
  getPaginatedShopOrders rt0 db_ABC (req 2 (Some [52]) None) =
    Ok {| page_orders := []; nextCursor := None |}.
Proof.
  apply (stale_cursor_ends_listing rt0 db_ABC (req 2 (Some [52]) None) [52]);
    [reflexivity | reflexivity | discriminate | reflexivity].
Defined.

Lemma find_map_const_frame : forall {A} (p q : A -> bool) c l,
  q c = false -> (forall x, q x = true -> p x = false) ->
  find q (map (fun x => if p x then c else x) l) = find q l.
Proof.
  intros A p q c l Hc Hqp. induction l as [|x r IH]; [reflexivity|].
  simpl. destruct (q x) eqn:E.
  - rewrite (Hqp x E). simpl. rewrite E. reflexivity.
  - destruct (p x); simpl; rewrite ?Hc, ?E; exact IH.
Qed.

(** X20: after a successful [update(orderId, data)], the returned row is
    [data] applied to the order stored under [orderId], [getOrderById]
    finds it by its (possibly new) id, and every other id looks up the
    same order as before. *)
Theorem update_then_getOrderById : forall chk db orderId data db' row,
  update chk db orderId data = POk (db', row) ->
  (exists old, getOrderById db orderId = Some old /\ row = data old) /\
  getOrderById db' (Order.id row) = Some row /\
  forall id', id' <> orderId -> id' <> Order.id row -> getOrderById db' id' = getOrderById db id'.
Proof.
  intros chk db orderId data db' row H. unfold update in H.
  destruct (getOrderById db orderId) as [old|] eqn:G; [|discriminate].
  destruct (chk db old (data old)); [discriminate|].
  destruct (existsb _ (orders db)) eqn:Ex; [discriminate|]. cbv beta iota in H. injection H as <- <-.
  split; [exists old; split; reflexivity|].
  assert (Hin : exists x, In x (orders db) /\ str_eqb (Order.id x) orderId = true).
  { unfold getOrderById in G. apply find_some_in in G. exists old. exact G. }
  assert (Hoth : forall x, In x (orders db) -> str_eqb (Order.id x) orderId = false ->
                   str_eqb (Order.id x) (Order.id (data old)) = false).
  { intros x Hx Hne. pose proof (existsb_false_in _ _ _ Ex Hx) as C. simpl in C.
    rewrite Hne in C. exact C. }
  clear G Ex. unfold getOrderById. simpl. split.
  - induction (orders db) as [|x r IH]; destruct Hin as [y [Hy Ey]]; [contradiction|].
    simpl. destruct (str_eqb (Order.id x) orderId) eqn:E; simpl; [rewrite str_eqb_refl; reflexivity|].
    rewrite (Hoth x (or_introl eq_refl) E). apply IH.
    + destruct Hy as [<- | Hy]; [congruence | exists y; split; assumption].
    + intros z Hz. apply Hoth. right. exact Hz.
  - intros id' N1 N2. apply find_map_const_frame.
    + apply str_eqb_neq. congruence.
    + intros x Hx. apply str_eqb_eq in Hx. apply str_eqb_neq. congruence.
Qed.

Lemma update_then_getOrderById_witness :
  update (fun _ _ _ => None) db_ABC [57]
    (fun o => set_status CANCELLED None None 36000100 o) =
    POk ({| orders := [order_A; order_B; set_status CANCELLED None None 36000100 order_C];
            users := users db_ABC |}, set_status CANCELLED None None 36000100 order_C) /\
  getOrderById {| orders := [order_A; order_B; set_status CANCELLED None None 36000100 order_C];
                  users := users db_ABC |} [57] = Some (set_status CANCELLED None None 36000100 order_C).
Proof.
  assert (E : update (fun _ _ _ => None) db_ABC [57]
    (fun o => set_status CANCELLED None None 36000100 o) =
    POk ({| orders := [order_A; order_B; set_status CANCELLED None None 36000100 order_C];
            users := users db_ABC |}, set_status CANCELLED None None 36000100 order_C)) by reflexivity.
  split; [exact E|]. exact (proj1 (proj2 (update_then_getOrderById _ _ _ _ _ _ E))).
Defined.

(** ** Strategy A and undecodable cursors *)



(** X22: with a (truthy) search term, a cursor string whose decoding
    throws (the [catch] swallows the error) gives exactly the result of the
    same request without a cursor. *)
Theorem undecodable_cursor_search_ignored : forall rt db o c,
  truthy (Opts.searchTerm o) = true ->
  Cursor.decode rt c = None ->
  getPaginatedShopOrders rt db (with_cursor o (Some c))
    = getPaginatedShopOrders rt db (with_cursor o None).
Proof.
  intros rt db o c Hs Hd.
  unfold getPaginatedShopOrders. cbn [with_cursor Opts.searchTerm]. rewrite Hs. cbn [negb].
  unfold searchShopOrders. cbn [with_cursor Opts.cursor Opts.limit Opts.shop_id
                               Opts.searchTerm Opts.orderStatus Opts.dateRange].
  unfold cursor_condition.
  destruct c as [|u c']; [reflexivity|].
  cbn [truthy]. rewrite Hd. reflexivity.
Qed.

Lemma undecodable_cursor_search_ignored_witness :
  truthy (Opts.searchTerm (req 1 None (Some [65]))) = true
  /\ Cursor.decode rt0 [97; 98; 99] = None
  /\ getPaginatedShopOrders rt0 db_ABC (with_cursor (req 1 None (Some [65])) (Some [97; 98; 99]))
     = getPaginatedShopOrders rt0 db_ABC (with_cursor (req 1 None (Some [65])) None).
Proof.
  split; [reflexivity|]. split; [vm_compute; reflexivity|].
  apply (undecodable_cursor_search_ignored rt0 db_ABC (req 1 None (Some [65])) [97; 98; 99]);
    vm_compute; reflexivity.
Defined.
